(** * uprotect-fetch: chunked, cookie-authenticated video export

    A shallow embedding of the download orchestrator [fetchVideo] and of the
    helpers it is built from ([postWithCookies], [safeUpdateCookie],
    [getBinaryDataWithCookies], [getCookies], [convertToMkv]).

    Conventions of the embedding.
    - A [Date] is its time value: milliseconds since the epoch, an integer.
    - A string is a sequence of Latin-1 code points, which is how Node hands
      HTTP header values to the program.
    - A cookie jar ([Record<string, string>]) is a finite map; jars are
      objects, so they live in a [Heap] and are passed by reference.
    - The file system, the jars, the retry configuration installed on the
      shared axios instance and the observable events form the [World]; the
      network, the clock, the response stream and ffmpeg are a [Runtime]
      consulted with the world reached so far.
    - [await] on a promise is an [Outcome]: [Resolved] or [Rejected]. *)

From Stdlib Require Import Ascii String ZArith QArith Qround Lia Lqa.
From stdpp Require Import base gmap strings list pretty.

Open Scope Z_scope.

(** ** JavaScript strings and objects *)

Module Js.

(** [s.split(sep)] for a one-character separator: never empty, the empty
    string splits into one empty piece. *)
Fixpoint split (sep : ascii) (s : string) : list string :=
  match s with
  | EmptyString => [EmptyString]
  | String c s' =>
      if Ascii.eqb c sep then EmptyString :: split sep s'
      else match split sep s' with
           | [] => [String c EmptyString]
           | piece :: pieces => String c piece :: pieces
           end
  end.

(** White space and line terminators among the Latin-1 code points:
    TAB, LF, VT, FF, CR, SP and NBSP. *)
Definition isWhiteSpace (c : ascii) : bool :=
  let n := nat_of_ascii c in
  ((9 <=? n)%nat && (n <=? 13)%nat) || (n =? 32)%nat || (n =? 160)%nat.

Fixpoint trimStart (s : string) : string :=
  match s with
  | EmptyString => EmptyString
  | String c s' => if isWhiteSpace c then trimStart s' else s
  end.

Fixpoint trimEnd (s : string) : string :=
  match s with
  | EmptyString => EmptyString
  | String c s' =>
      match trimEnd s' with
      | EmptyString => if isWhiteSpace c then EmptyString else String c EmptyString
      | t => String c t
      end
  end.

Definition trim (s : string) : string := trimEnd (trimStart s).

(** [xs.join(sep)] *)
Fixpoint join (sep : string) (xs : list string) : string :=
  match xs with
  | [] => EmptyString
  | [x] => x
  | x :: rest => x +:+ sep +:+ join sep rest
  end.

(** [o[key] = value] on an ordinary object holding strings. Assigning a
    string to [__proto__] reaches the accessor inherited from
    [Object.prototype], which ignores values that are not objects: no own
    property is created. *)
Definition setProperty (key value : string) (o : gmap string string)
  : gmap string string :=
  if String.eqb key "__proto__" then o else <[key := value]> o.

End Js.

(** ** Cookie jars *)

(** [type Cookies = Record<string, string>] is [gmap string string]. *)

(** Jars are objects: a reference is an index into the heap of jars. *)
Abbreviation Ref := nat (only parsing).
Abbreviation Heap := (list (gmap string string)) (only parsing).

Definition deref (h : Heap) (r : Ref) : gmap string string :=
  default ∅ (h !! r).

(** [{}] and [{ ...o }] allocate a new object. *)
Definition allocObject (o : gmap string string) (h : Heap) : Ref * Heap :=
  (List.length h, h ++ [o]).

(** [safeUpdateCookie(cookie, updatedCookies)]: mutates the jar in place. *)
Definition safeUpdateCookie (cookie : string) (updatedCookies : Ref) (h : Heap)
  : Heap :=
  let splitCookie := Js.split ";"%char cookie in
  if negb (List.length splitCookie =? 1)%nat then h else
  match splitCookie !! 0%nat with
  | None => h
  | Some first =>
      let kv := Js.split "="%char first in
      match kv !! 0%nat, kv !! 1%nat with
      | Some key, Some value =>
          <[updatedCookies :=
              Js.setProperty (Js.trim key) (Js.trim value) (deref h updatedCookies)]> h
      | _, _ => h
      end
  end.

(** The tail shared by [postWithCookies] and [getBinaryDataWithCookies]:
    [const updatedCookies = { ...cookies }] followed by
    [setCookieHeader.forEach(cookie => safeUpdateCookie(cookie, updatedCookies))]
    when the response carries a [set-cookie] header. *)
Definition mergeSetCookie (setCookieHeader : option (list string))
    (cookies : Ref) (h : Heap) : Ref * Heap :=
  let '(updatedCookies, h1) := allocObject (deref h cookies) h in
  match setCookieHeader with
  | None => (updatedCookies, h1)
  | Some cs =>
      (updatedCookies,
       fold_left (fun h' cookie => safeUpdateCookie cookie updatedCookies h') cs h1)
  end.

(** The [Cookie] request header: [name=value] pairs joined by ["; "]. The
    object lists its entries in the order they were added; the map does not
    keep that order and lists them by name. The header of the model is the
    header of the code up to the order of its pairs, and statements about
    a header are made up to that order ([headerOf]). For a jar of at most
    one cookie the two are the same string. *)
Definition cookieHeader (cookies : gmap string string) : string :=
  Js.join "; " ((fun kv => fst kv +:+ "=" +:+ snd kv) <$> map_to_list cookies).

(** ** date-fns

    The functions of date-fns 2.x the program calls, on time values.
    [differenceInMinutes] and [differenceInSeconds] round towards zero (the
    library's default rounding method is [trunc]); [add] with only a
    [minutes] field adds that many times 60000 milliseconds. *)

Module DateFns.

Record Duration := { minutes : Z }.

Definition isBefore (date dateToCompare : Z) : bool := date <? dateToCompare.

Definition differenceInMilliseconds (dateLeft dateRight : Z) : Z :=
  dateLeft - dateRight.

Definition differenceInMinutes (dateLeft dateRight : Z) : Z :=
  Z.quot (differenceInMilliseconds dateLeft dateRight) 60000.

Definition differenceInSeconds (dateLeft dateRight : Z) : Z :=
  Z.quot (differenceInMilliseconds dateLeft dateRight) 1000.

Definition add (date : Z) (duration : Duration) : Z :=
  date + minutes duration * 60 * 1000.

End DateFns.

(** ** Numbers

    The only fractional number of the program is the throughput, a file size
    divided by a whole number of seconds. It is kept as the exact quotient
    (the rounding of the binary64 division is not modelled); the special
    values a zero divisor produces are explicit. *)

Inductive Number :=
| Finite (q : Q)
| PlusInfinity
| MinusInfinity
| NaN.

Module Num.

(** [size / seconds] for a file size and a signed whole number of seconds.
    The divisor has one zero: the negative zero that date-fns returns for
    an elapsed time between -1000 and 0 ms is not told apart from it. *)
Definition div (size : N) (seconds : Z) : Number :=
  match seconds with
  | Z0 => if (size =? 0)%N then NaN else PlusInfinity
  | Zpos p => Finite (Z.of_N size # p)
  | Zneg p => Finite (- Z.of_N size # p)
  end.

(** [x > n] for an integer literal [n]. *)
Definition gt (x : Number) (n : Z) : bool :=
  match x with
  | Finite q => negb (Qle_bool q (inject_Z n))
  | PlusInfinity => true
  | MinusInfinity | NaN => false
  end.

(** [x / n] for a positive integer literal [n]. *)
Definition divBy (x : Number) (n : positive) : Number :=
  match x with
  | Finite q => Finite (q / inject_Z (Zpos n))
  | other => other
  end.

(** [Math.round(x)]: the nearest integer, a tie going up. *)
Definition round (x : Number) : Number :=
  match x with
  | Finite q => Finite (inject_Z (Qfloor (q + (1 # 2))))
  | other => other
  end.

(** [`${x}`] for the values the program prints: results of [Math.round],
    integral and far below 10^21 for any file the recorder can hold, so in
    plain decimal notation, and the three special values. *)
Definition toString (x : Number) : string :=
  match x with
  | Finite q => pretty (Qfloor q)
  | PlusInfinity => "Infinity"
  | MinusInfinity => "-Infinity"
  | NaN => "NaN"
  end.

End Num.

(** ** Status events, errors, requests *)

Record AxiosResponse := {
  status : Z;
  set_cookie : option (list string);  (* response.headers['set-cookie'] *)
  data : string;
}.

(** A thrown or emitted error; [response] is what an axios error carries
    ([None] for a failure at the network level). *)
Record JsError := {
  message : string;
  response : option AxiosResponse;
}.

Inductive StatusType :=
| Waiting
| Downloading
| DownloadThroughput
| Converting
| Error.

Inductive Status :=
| WaitingStatus
| DownloadingStatus (progressPercent : option string)
| DownloadThroughputStatus (throughputString : string)
| ConvertingStatus
| ErrorStatus (error : JsError) (errorString : string).

Definition type (s : Status) : StatusType :=
  match s with
  | WaitingStatus => Waiting
  | DownloadingStatus _ => Downloading
  | DownloadThroughputStatus _ => DownloadThroughput
  | ConvertingStatus => Converting
  | ErrorStatus _ _ => Error
  end.

Inductive Method := POST | GET.

Record Request := {
  method : Method;
  url : string;
  cookie : string;         (* the Cookie header *)
  body : option string;
}.

(** What one attempt of a request meets. *)
Inductive HttpResult :=
| NetworkFailure (msg : string)
| HttpResponse (r : AxiosResponse).

(** How the piping of a response body into the destination file ends. *)
Inductive StreamEnd :=
| Finish                        (* writer 'finish' *)
| WriterError (err : JsError)   (* writer 'error' *)
| ResponseError (err : JsError) (* response.data 'error' *).

Record StreamResult := {
  ticks : list (option Q);  (* progressEvent.progress of each progress event *)
  written : N;              (* bytes that reached the file *)
  finished : StreamEnd;
}.

(** How an ffmpeg run ends: the 'end' event, or 'error' with its error; and
    the size of the output file it left behind, if any. *)
Record FfmpegResult := {
  failure : option JsError;
  output : option N;
}.

(** The observable events, newest first in [events]. *)
Inductive Event :=
| HttpAttempt (req : Request) (res : HttpResult)
| SetTimeout (delay : Z)
| StatusCallback (s : Status)
| ConsoleLog (msg : string)
| FfmpegRun (inputPath outputPath : string).

(** The options given to [axiosRetry]; [retryDelay] is left to the
    library's default. *)
Record AxiosRetryOptions := {
  retries : nat;
  retryCondition : JsError -> bool;
  retryDelay : nat -> JsError -> Z;
}.

(** [type Payload = Record<string, any>]: an object sent as form data, as
    the list of its own properties in the order the object lists them. *)
Abbreviation Payload := (list (string * string)) (only parsing).

Record World := {
  files : gmap string N;             (* files of the working directory, with their sizes *)
  jars : Heap;
  axiosRetry : option AxiosRetryOptions; (* installed on the shared axios instance *)
  events : list Event;
}.

(** What the program does not decide. Each oracle sees the world reached so
    far, so an answer may depend on everything that happened before. *)
Record Runtime := {
  format : Z -> string -> string;    (* date-fns format, in the local time zone *)
  URLSearchParams : Payload -> string; (* new URLSearchParams(payload).toString() *)
  toLocaleStringPercent : Q -> string;
  now : World -> Z;                  (* Date.now() *)
  http : World -> Request -> HttpResult;
  stream : World -> string -> StreamResult;
  ffmpeg : World -> string -> string -> FfmpegResult;
}.

(** ** Promises over the world *)

Inductive Outcome (A : Type) :=
| Resolved (a : A)
| Rejected (e : JsError).
Arguments Resolved {A} a.
Arguments Rejected {A} e.

Definition M (A : Type) : Type := World -> Outcome A * World.

Definition ret {A} (a : A) : M A := fun w => (Resolved a, w).

Definition throw {A} (e : JsError) : M A := fun w => (Rejected e, w).

Definition bind {A B} (c : M A) (k : A -> M B) : M B := fun w =>
  match c w with
  | (Resolved a, w1) => k a w1
  | (Rejected e, w1) => (Rejected e, w1)
  end.

Declare Scope promise_scope.
Delimit Scope promise_scope with promise.
Notation "x <- c ;; k" := (bind c (fun x => k))
  (at level 100, c at next level, right associativity) : promise_scope.
Open Scope promise_scope.

Definition setFiles (f : gmap string N) (w : World) : World :=
  {| files := f; jars := jars w; axiosRetry := axiosRetry w; events := events w |}.

Definition setJars (h : Heap) (w : World) : World :=
  {| files := files w; jars := h; axiosRetry := axiosRetry w; events := events w |}.

Definition setAxiosRetry (o : AxiosRetryOptions) (w : World) : World :=
  {| files := files w; jars := jars w; axiosRetry := Some o; events := events w |}.

Definition emit (e : Event) (w : World) : World :=
  {| files := files w; jars := jars w; axiosRetry := axiosRetry w;
     events := e :: events w |}.

Definition update (f : World -> World) : M unit := fun w => (Resolved tt, f w).

Definition ask {A} (f : World -> A) : M A := fun w => (Resolved (f w), w).

(** [statusCallback?.(status)]: the callback is optional. A callback is
    taken to return; one that throws is not covered. *)
Definition notify (statusCallback : bool) (s : Status) : M unit :=
  if statusCallback then update (emit (StatusCallback s)) else ret tt.

(** ** The file system *)

Module Fs.

Definition enoent (path : string) : JsError :=
  {| message := "ENOENT: no such file or directory, " +:+ path; response := None |}.

Definition existsSync (path : string) : M bool :=
  ask (fun w => bool_decide (is_Some (files w !! path))).

(** [fs.statSync(path).size] *)
Definition statSync_size (path : string) : M N := fun w =>
  match files w !! path with
  | Some size => (Resolved size, w)
  | None => (Rejected (enoent path), w)
  end.

Definition unlinkSync (path : string) : M unit := fun w =>
  match files w !! path with
  | Some _ => (Resolved tt, setFiles (delete path (files w)) w)
  | None => (Rejected (enoent path), w)
  end.

(** [fs.createWriteStream(path)] opens the file for writing: it is created,
    or emptied when it was there. The open is taken to succeed; one that
    fails (a missing directory, no permission) is not covered. *)
Definition createWriteStream (path : string) : M unit :=
  update (fun w => setFiles (<[path := 0%N]> (files w)) w).

End Fs.

(** ** axios with axios-retry

    One attempt rejects unless the status passes axios's default
    [validateStatus] (2xx). When [axiosRetry] has been installed, a rejected
    attempt is tried again while [retryCount < retries] and [retryCondition]
    accepts the error; the retry is scheduled with [setTimeout] after
    [retryDelay]. [remaining] is [retries - retryCount]. Installing the
    interceptor again with the same options changes nothing: the counter
    travels with the request. *)

Module Axios.

Definition validateStatus (status : Z) : bool :=
  (200 <=? status) && (status <? 300).

Definition attempt (rt : Runtime) (req : Request) : M AxiosResponse := fun w =>
  let res := http rt w req in
  let w1 := emit (HttpAttempt req res) w in
  match res with
  | NetworkFailure msg => (Rejected {| message := msg; response := None |}, w1)
  | HttpResponse r =>
      if validateStatus (status r) then (Resolved r, w1)
      else (Rejected {| message := "Request failed with status code " +:+ pretty (status r);
                        response := Some r |}, w1)
  end.

Fixpoint retrying (rt : Runtime) (o : AxiosRetryOptions)
    (remaining retryCount : nat) (req : Request) (w : World)
  : Outcome AxiosResponse * World :=
  match attempt rt req w with
  | (Resolved r, w1) => (Resolved r, w1)
  | (Rejected error, w1) =>
      match remaining with
      | S remaining' =>
          if retryCondition o error then
            retrying rt o remaining' (S retryCount) req
              (emit (SetTimeout (retryDelay o (S retryCount) error)) w1)
          else (Rejected error, w1)
      | O => (Rejected error, w1)
      end
  end.

Definition request (rt : Runtime) (req : Request) : M AxiosResponse := fun w =>
  match axiosRetry w with
  | Some o => retrying rt o (retries o) 0 req w
  | None => attempt rt req w
  end.

(** axios-retry's default [retryDelay]. *)
Definition noDelay (retryCount : nat) (error : JsError) : Z := 0.

End Axios.

(** ** The program *)

(** The options of the [axiosRetry(axios, {...})] call in [postWithCookies]. *)
Definition retryOptions : AxiosRetryOptions :=
  {| retries := 3;
     retryCondition := fun error =>
       match response error with
       | None => true
       | Some r => 400 <=? status r
       end;
     retryDelay := Axios.noDelay |}.

Definition newObject (o : gmap string string) : M Ref := fun w =>
  let '(r, h) := allocObject o (jars w) in (Resolved r, setJars h w).

(** A [cookies] argument left out is a new empty jar. *)
Definition orEmptyJar (cookies : option Ref) : M Ref :=
  match cookies with
  | Some r => ret r
  | None => newObject ∅
  end.

Definition mergeResponseCookies (setCookieHeader : option (list string))
    (cookies : Ref) : M Ref := fun w =>
  let '(r, h) := mergeSetCookie setCookieHeader cookies (jars w) in
  (Resolved r, setJars h w).

Definition postWithCookies (rt : Runtime) (url : string)
    (payload : Payload) (cookies : option Ref)
  : M (string * Ref) :=
  cookies <- orEmptyJar cookies ;;
  jar <- ask (fun w => deref (jars w) cookies) ;;
  let body := URLSearchParams rt payload in
  _ <- update (setAxiosRetry retryOptions) ;;
  response <- Axios.request rt
    {| method := POST; url := url; cookie := cookieHeader jar; body := Some body |} ;;
  let responseText := data response in
  updatedCookies <- mergeResponseCookies (set_cookie response) cookies ;;
  ret (responseText, updatedCookies).

Definition percent (rt : Runtime) (input : option Q) : string :=
  match input with
  | None => "Unknown"
  | Some x => toLocaleStringPercent rt x
  end.

(** The [onDownloadProgress] handler, for one progress event. *)
Definition progress (rt : Runtime) (statusCallback : bool) (w : World)
    (p : option Q) : World :=
  snd (notify statusCallback (DownloadingStatus (Some (percent rt p))) w).

(** The promise at the end of [getBinaryDataWithCookies]: the body is piped
    into the file, progress events arrive, and the first of the three
    handlers that fires settles the promise. *)
Definition pipe (rt : Runtime) (filename : string) (statusCallback : bool)
    (updatedCookies : Ref) : M Ref := fun w =>
  let s := stream rt w filename in
  let w1 := fold_left (progress rt statusCallback) (ticks s) w in
  let w2 := setFiles (<[filename := written s]> (files w1)) w1 in
  match finished s with
  | Finish =>
      (_ <- notify statusCallback (DownloadingStatus (Some "100%")) ;;
       ret updatedCookies) w2
  | WriterError err =>
      (_ <- notify statusCallback
              (ErrorStatus err ("Error writing to the file " +:+ filename)) ;;
       throw err) w2
  | ResponseError err =>
      (_ <- notify statusCallback
              (ErrorStatus err "Error reading the response from the server") ;;
       throw err) w2
  end.

(** Lines 136-171 of [getBinaryDataWithCookies]: everything up to the
    response headers, that is, before any byte of the body is written. *)
Definition startDownload (rt : Runtime) (url : string)
    (cookies : option Ref) (filename : string) (statusCallback : bool)
  : M Ref :=
  cookies <- orEmptyJar cookies ;;
  jar <- ask (fun w => deref (jars w) cookies) ;;
  _ <- Fs.createWriteStream filename ;;
  _ <- notify statusCallback WaitingStatus ;;
  response <- Axios.request rt
    {| method := GET; url := url; cookie := cookieHeader jar; body := None |} ;;
  mergeResponseCookies (set_cookie response) cookies.

Definition getBinaryDataWithCookies (rt : Runtime) (url : string)
    (cookies : option Ref) (filename : string) (statusCallback : bool)
  : M Ref :=
  updatedCookies <- startDownload rt url cookies filename statusCallback ;;
  pipe rt filename statusCallback updatedCookies.

(** [interface AuthPayload { username: string; password: string }]. The
    object goes to [postWithCookies] as it is, so it is kept as what
    [URLSearchParams] reads of it: its own properties in the order the
    object lists them. The interface asks for [username] and [password]
    among them; it fixes neither their order nor that they are the only
    ones. *)
Abbreviation AuthPayload := (Payload) (only parsing).

Definition getCookies (rt : Runtime) (authPayload : AuthPayload)
    (ipAddress : string) : M Ref :=
  cookies <- newObject ∅ ;;
  r <- postWithCookies rt ("https://" +:+ ipAddress +:+ ":443/api/auth/login")
         authPayload (Some cookies) ;;
  ret (snd r).

Definition convertToMkv (rt : Runtime) (inputPath outputPath : string)
  : M bool := fun w =>
  let r := ffmpeg rt w inputPath outputPath in
  let w1 := emit (FfmpegRun inputPath outputPath) w in
  let w2 := match output r with
            | Some n => setFiles (<[outputPath := n]> (files w1)) w1
            | None => w1
            end in
  match failure r with
  | None => (Resolved true, w2)
  | Some err =>
      (Rejected err, emit (ConsoleLog ("Conversion error: " +:+ message err)) w2)
  end.

Definition formatDate (rt : Runtime) (date : Z) : string :=
  format rt date "yyyy-MM-dd hh:mm:ss aa".

Module Camera.
Record t := {
  id : string;
  name : option string;
}.
End Camera.
Definition Camera := Camera.t.

Record OutputFileType := {
  cameraName : string;
  start : Z;
  end_ : Z;
  filename : string;
}.

Record Args := {
  ipAddress : string;
  cameras : list Camera;
  args_start : Z;
  args_end : Z;
  mp4 : option bool;
  statusCallback : bool;
  auth : AuthPayload;
}.

Definition maxMinuteDiff : DateFns.Duration := {| DateFns.minutes := 60 |}.

(** Lines 272-279: the end of the window that starts at [currentStart]. *)
Definition windowEnd (args_end currentStart : Z) : Z :=
  let diffInMinutes := DateFns.differenceInMinutes args_end currentStart in
  if DateFns.minutes maxMinuteDiff <? diffInMinutes
  then DateFns.add currentStart maxMinuteDiff
  else args_end.

Definition exportUrl (ipAddress : string) (camera : Camera)
    (currentStart currentEnd : Z) : string :=
  "https://" +:+ ipAddress +:+ ":443/proxy/protect/api/video/export?camera="
    +:+ Camera.id camera +:+ "&start=" +:+ pretty currentStart
    +:+ "&end=" +:+ pretty currentEnd.

(** [camera.name ?? camera.id] *)
Definition label (camera : Camera) : string := default (Camera.id camera) (Camera.name camera).

Definition baseFilename (rt : Runtime) (camera : Camera)
    (currentStart currentEnd : Z) : string :=
  formatDate rt currentStart +:+ "_" +:+ formatDate rt currentEnd +:+ "_"
    +:+ label camera.

(** Lines 327-333. *)
Definition throughputString (throughput : Number) : string :=
  if Num.gt throughput 1000000
  then Num.toString (Num.round (Num.divBy throughput 1000000)) +:+ " MB"
  else Num.toString (Num.round throughput) +:+ " B".

(** Lines 299-308: [true] when the body ends with [continue]. *)
Definition skipExisting (mp4Filename : string) : M bool :=
  there <- Fs.existsSync mp4Filename ;;
  if there : bool then
    size <- Fs.statSync_size mp4Filename ;;
    if (size =? 0)%N then
      _ <- Fs.unlinkSync mp4Filename ;;
      ret false
    else
      _ <- update (emit (ConsoleLog
             (mp4Filename +:+ " already exists and is not empty, refusing to overwrite it"))) ;;
      ret true
  else ret false.

(** Lines 310-340: authenticate, download, report the throughput. *)
Definition download (rt : Runtime) (args : Args) (url mp4Filename : string)
  : M unit :=
  downloadStart <- ask (now rt) ;;
  cookies <- getCookies rt (auth args) (ipAddress args) ;;
  _ <- getBinaryDataWithCookies rt url (Some cookies) mp4Filename
         (statusCallback args) ;;
  downloadEnd <- ask (now rt) ;;
  let diffInSeconds := DateFns.differenceInSeconds downloadEnd downloadStart in
  size <- Fs.statSync_size mp4Filename ;;
  let throughput := Num.div size diffInSeconds in
  notify (statusCallback args) (DownloadThroughputStatus (throughputString throughput)).

(** Lines 342-349. *)
Definition convert (rt : Runtime) (args : Args) (mp4Flag : bool)
    (mp4Filename mkvFilename : string) : M unit :=
  if negb mp4Flag then
    _ <- notify (statusCallback args) ConvertingStatus ;;
    _ <- convertToMkv rt mp4Filename mkvFilename ;;
    Fs.unlinkSync mp4Filename
  else ret tt.

(** The body of [for (const camera of args.cameras)] for one camera, on the
    loop's variables [currentStart] and [outputFiles]; [currentEnd] is fixed
    by the enclosing [while] iteration. *)
Definition cameraBody (rt : Runtime) (args : Args) (currentEnd : Z)
    (camera : Camera) (currentStart : Z) (outputFiles : list OutputFileType)
  : M (Z * list OutputFileType) :=
  let mp4Flag := default true (mp4 args) in
  let url := exportUrl (ipAddress args) camera currentStart currentEnd in
  let base := baseFilename rt camera currentStart currentEnd in
  let mp4Filename := base +:+ ".mp4" in
  let mkvFilename := base +:+ ".mkv" in
  let currentStart := DateFns.add currentStart maxMinuteDiff in
  skip <- skipExisting mp4Filename ;;
  if skip : bool then ret (currentStart, outputFiles) else
  _ <- download rt args url mp4Filename ;;
  _ <- convert rt args mp4Flag mp4Filename mkvFilename ;;
  ret (currentStart,
       outputFiles ++
         [{| cameraName := label camera;
             start := args_start args;
             end_ := args_end args;
             filename := if mp4Flag then mp4Filename else mkvFilename |}]).

Fixpoint forCameras (rt : Runtime) (args : Args) (currentEnd : Z)
    (cams : list Camera) (currentStart : Z) (outputFiles : list OutputFileType)
  : M (Z * list OutputFileType) :=
  match cams with
  | [] => ret (currentStart, outputFiles)
  | camera :: rest =>
      st <- cameraBody rt args currentEnd camera currentStart outputFiles ;;
      forCameras rt args currentEnd rest (fst st) (snd st)
  end.

(** The [while] loop. It need not end, so it runs on fuel: [None] when the
    fuel is used up before the loop condition fails. *)
Fixpoint whileLoop (rt : Runtime) (args : Args) (fuel : nat)
    (currentStart : Z) (outputFiles : list OutputFileType) (w : World)
  : option (Outcome (list OutputFileType) * World) :=
  if DateFns.isBefore currentStart (args_end args) then
    match fuel with
    | O => None
    | S fuel' =>
        let currentEnd := windowEnd (args_end args) currentStart in
        match forCameras rt args currentEnd (cameras args) currentStart outputFiles w with
        | (Resolved st, w1) => whileLoop rt args fuel' (fst st) (snd st) w1
        | (Rejected e, w1) => Some (Rejected e, w1)
        end
    end
  else Some (Resolved outputFiles, w).

Definition fetchVideo (rt : Runtime) (args : Args) (fuel : nat) (w : World)
  : option (Outcome (list OutputFileType) * World) :=
  whileLoop rt args fuel (args_start args) [] w.

(** ** The schedule of the loops

    The (camera, window start, window end) triples the two loops visit, in
    order: the same control flow as [forCameras] and [whileLoop] with the
    per-camera work left out. *)

Record Job := {
  job_camera : Camera;
  job_start : Z;
  job_end : Z;
}.

Fixpoint cameraJobs (currentEnd : Z) (cams : list Camera) (currentStart : Z)
  : Z * list Job :=
  match cams with
  | [] => (currentStart, [])
  | camera :: rest =>
      let '(final, js) :=
        cameraJobs currentEnd rest (DateFns.add currentStart maxMinuteDiff) in
      (final, {| job_camera := camera; job_start := currentStart;
                 job_end := currentEnd |} :: js)
  end.

Fixpoint jobs (fuel : nat) (cams : list Camera) (args_end currentStart : Z)
  : option (list Job) :=
  if DateFns.isBefore currentStart args_end then
    match fuel with
    | O => None
    | S fuel' =>
        let currentEnd := windowEnd args_end currentStart in
        let '(next, js) := cameraJobs currentEnd cams currentStart in
        match jobs fuel' cams args_end next with
        | Some rest => Some (js ++ rest)
        | None => None
        end
    end
  else Some [].

(** One job run on its own: the body of the inner loop at that job. *)
Definition runJob (rt : Runtime) (args : Args) (j : Job)
    (outputFiles : list OutputFileType) : M (list OutputFileType) :=
  st <- cameraBody rt args (job_end j) (job_camera j) (job_start j) outputFiles ;;
  ret (snd st).

Fixpoint runJobs (rt : Runtime) (args : Args) (js : list Job)
    (outputFiles : list OutputFileType) : M (list OutputFileType) :=
  match js with
  | [] => ret outputFiles
  | j :: rest =>
      out <- runJob rt args j outputFiles ;;
      runJobs rt args rest out
  end.

(** ** Vocabulary of the statements *)

(** [c] occurs in [s]. *)
Fixpoint occurs (c : ascii) (s : string) : bool :=
  match s with
  | EmptyString => false
  | String c' s' => Ascii.eqb c' c || occurs c s'
  end.

(** All characters of [s] are white space. *)
Fixpoint blank (s : string) : bool :=
  match s with
  | EmptyString => true
  | String c s' => Js.isWhiteSpace c && blank s'
  end.

Definition startsBlank (s : string) : bool :=
  match s with
  | EmptyString => false
  | String c _ => Js.isWhiteSpace c
  end.

Fixpoint endsBlank (s : string) : bool :=
  match s with
  | EmptyString => false
  | String c EmptyString => Js.isWhiteSpace c
  | String _ s' => endsBlank s'
  end.

(** [t] is [s] without the white space around it. *)
Definition Trimmed (s t : string) : Prop :=
  exists pre post,
    s = pre +:+ t +:+ post /\ blank pre = true /\ blank post = true /\
    startsBlank t = false /\ endsBlank t = false.

(** The export URL and the two file names of a job, as [cameraBody]
    builds them. *)
Definition urlOf (args : Args) (j : Job) : string :=
  exportUrl (ipAddress args) (job_camera j) (job_start j) (job_end j).

Definition mp4FilenameOf (rt : Runtime) (j : Job) : string :=
  baseFilename rt (job_camera j) (job_start j) (job_end j) +:+ ".mp4".

Definition mkvFilenameOf (rt : Runtime) (j : Job) : string :=
  baseFilename rt (job_camera j) (job_start j) (job_end j) +:+ ".mkv".

(** The chunk of job [j] was downloaded, not skipped: from world [w] the
    skip check let it through and the download resolved in world [w']. *)
Definition fetched (rt : Runtime) (args : Args) (j : Job) (w w' : World) : Prop :=
  exists wm,
    skipExisting (mp4FilenameOf rt j) w = (Resolved false, wm) /\
    download rt args (urlOf args j) (mp4FilenameOf rt j) wm = (Resolved tt, w').

(** The windows of a schedule, in order. *)
Definition windows (js : list Job) : list (Z * Z) :=
  (fun j => (job_start j, job_end j)) <$> js.

(** [ws] cuts the range from [from] to [to] into consecutive windows: each
    starts where the one before ended, none is empty or longer than 60
    minutes, and the last one ends at [to]. Such a list is ordered,
    contiguous and without overlap, and covers the range exactly once. *)
Fixpoint Chained (from : Z) (ws : list (Z * Z)) (to : Z) : Prop :=
  match ws with
  | [] => from = to
  | (a, b) :: rest =>
      a = from /\ a < b /\ b - a <= 3600000 /\ Chained b rest to
  end.

(** ** Reading the events *)

(** The statuses the callback received, oldest first. *)
Definition statuses (evs : list Event) : list Status :=
  omap (fun e => match e with StatusCallback s => Some s | _ => None end) (rev evs).

(** What each attempt put on the wire met, oldest first. *)
Definition attempts (evs : list Event) : list HttpResult :=
  omap (fun e => match e with HttpAttempt _ res => Some res | _ => None end) (rev evs).

(** The delays of the retries that were scheduled. *)
Definition delays (evs : list Event) : list Z :=
  omap (fun e => match e with SetTimeout d => Some d | _ => None end) (rev evs).

(** The URLs of the GET requests put on the wire, oldest first. *)
Definition downloads (evs : list Event) : list string :=
  omap (fun e => match e with
                 | HttpAttempt {| method := GET; url := u |} _ => Some u
                 | _ => None
                 end) (rev evs).

(** The world a finished run ended in. *)
Definition finalWorld {A} (r : option (Outcome A * World)) : option World :=
  snd <$> r.

(** The events a status leaves when the callback is there. *)
Definition notified (statusCallback : bool) (s : Status) : list Event :=
  if statusCallback then [StatusCallback s] else [].

(** The events of the progress reports of a download, newest first. *)
Definition progressEvents (rt : Runtime) (statusCallback : bool)
    (ps : list (option Q)) : list Event :=
  rev (ps ≫= fun p =>
         notified statusCallback (DownloadingStatus (Some (percent rt p)))).

(** An attempt that calls for another one: a failure at the network level
    or a response with a status of 400 or more. *)
Definition retryable (res : HttpResult) : bool :=
  match res with
  | NetworkFailure _ => true
  | HttpResponse r => 400 <=? status r
  end.

(** The attempts of one request under a cap of [cap] attempts: at least
    one and at most [cap]; every attempt but the last was [retryable]; and
    the last one is [retryable] only when the cap is reached. So a further
    attempt is made exactly when the previous one was [retryable] and the
    cap allows it. *)
Definition RetryTrace (cap : nat) (rs : list HttpResult) : Prop :=
  (1 <= List.length rs <= cap)%nat /\
  (forall i r, rs !! i = Some r -> (S i < List.length rs)%nat -> retryable r = true) /\
  (forall r, last rs = Some r -> retryable r = true -> List.length rs = cap).

(** The outcome [o] of a request is what axios makes of the answer [res]:
    a 2xx response resolves with it; any other response rejects with an
    error that carries it; a failure of the network rejects with an error
    without response. *)
Definition answers (res : HttpResult) (o : Outcome AxiosResponse) : Prop :=
  match o, res with
  | Resolved r, HttpResponse r' =>
      r = r' /\ Axios.validateStatus (status r) = true
  | Rejected e, HttpResponse r' =>
      response e = Some r' /\ Axios.validateStatus (status r') = false
  | Rejected e, NetworkFailure msg => message e = msg /\ response e = None
  | Resolved _, NetworkFailure _ => False
  end.

(** The record [cameraBody] appends for a job that was not skipped. *)
Definition recordOf (rt : Runtime) (args : Args) (j : Job) : OutputFileType :=
  {| cameraName := label (job_camera j);
     start := args_start args;
     end_ := args_end args;
     filename := if default true (mp4 args)
                 then mp4FilenameOf rt j else mkvFilenameOf rt j |}.

(** The throughput reports among the statuses. *)
Definition throughputs (ss : list Status) : list string :=
  omap (fun s => match s with DownloadThroughputStatus t => Some t | _ => None end) ss.

(** Events that are no requests. *)
Definition silent (e : Event) : Prop :=
  match e with HttpAttempt _ _ => False | _ => True end.

(** The login request of a run: the POST of [args.auth], as
    [URLSearchParams] encodes the object, to the login URL, without
    cookies. *)
Definition loginRequest (rt : Runtime) (args : Args) : Request :=
  {| method := POST;
     url := "https://" +:+ ipAddress args +:+ ":443/api/auth/login";
     cookie := "";
     body := Some (URLSearchParams rt (auth args)) |}.

(** [req] is a GET, without body, of the export URL of one of the jobs. *)
Definition exportRequest (args : Args) (js : list Job) (req : Request) : Prop :=
  method req = GET /\ body req = None /\
  exists j, j ∈ js /\ url req = urlOf args j.

(** An event that is no request, or a request the run is meant to make:
    the login, or the export of a planned job. *)
Definition expected (rt : Runtime) (args : Args) (js : list Job) (e : Event)
  : Prop :=
  match e with
  | HttpAttempt req _ => req = loginRequest rt args \/ exportRequest args js req
  | _ => True
  end.

(** [header] is a [Cookie] header of [jar]: the entries of the jar, each
    once, as [name=value] pairs joined by ["; "], in some order. *)
Definition headerOf (jar : gmap string string) (header : string) : Prop :=
  exists entries,
    entries ≡ₚ map_to_list jar /\
    header = Js.join "; " ((fun kv => fst kv +:+ "=" +:+ snd kv) <$> entries).

(** What the body of a download started in [w] does: the stream is the one
    of the world in which the response has arrived. *)
Definition bodyOf (rt : Runtime) (url : string) (cookies : option Ref)
    (filename : string) (statusCallback : bool) (w : World) : StreamResult :=
  stream rt (snd (startDownload rt url cookies filename statusCallback w)) filename.

(** The reports of a download whose body [s] is piped to its end. *)
Definition downloadReports (rt : Runtime) (s : StreamResult) : list Status :=
  WaitingStatus
    :: ((fun p => DownloadingStatus (Some (percent rt p))) <$> ticks s)
    ++ [DownloadingStatus (Some "100%")].

(** The condition of the skip rule: the destination of [j] is there and
    not empty. *)
Definition kept (rt : Runtime) (w : World) (j : Job) : bool :=
  match files w !! mp4FilenameOf rt j with
  | Some size => negb (size =? 0)%N
  | None => false
  end.

(** The world without the destination of [j]: where the download of a job
    that is not skipped starts. *)
Definition cleared (rt : Runtime) (j : Job) (w : World) : World :=
  setFiles (delete (mp4FilenameOf rt j) (files w)) w.

(** The reports of the chunk of [j] when it is downloaded from world [w0]
    on, its body being [s] and the download being over in world [w2]: the
    throughput is what was written by the seconds between the two. *)
Definition chunkReports (rt : Runtime) (args : Args) (s : StreamResult)
    (w0 w2 : World) : list Status :=
  downloadReports rt s
    ++ [DownloadThroughputStatus
          (throughputString
             (Num.div (written s)
                (DateFns.differenceInSeconds (now rt w2) (now rt w0))))]
    ++ (if default true (mp4 args) then [] else [ConvertingStatus]).

(** The jobs of [js] that are not skipped in a run from [w]. *)
Definition due (rt : Runtime) (w : World) (js : list Job) : list Job :=
  List.filter (fun j => negb (kept rt w j)) js.

(** ** Concrete runs

    A small recorder to run the program against: dates print as their time
    value, every request is answered by [server], a download body by
    [body], an ffmpeg run by [remux], and the clock reads [clock]. *)

Module Scenario.

Definition world0 : World :=
  {| files := ∅; jars := []; axiosRetry := None; events := [] |}.

Definition runtime (clock : World -> Z) (server : World -> Request -> HttpResult)
    (body : World -> string -> StreamResult)
    (remux : World -> string -> string -> FfmpegResult) : Runtime :=
  {| format := fun date _ => pretty date;
     URLSearchParams := fun kvs =>
       Js.join "&" ((fun kv => fst kv +:+ "=" +:+ snd kv) <$> kvs);
     toLocaleStringPercent := fun x => pretty (Qfloor (x * 100)) +:+ "%";
     now := clock;
     http := server;
     stream := body;
     ffmpeg := remux |}.

Definition ok (w : World) (req : Request) : HttpResult :=
  HttpResponse {| status := 200; set_cookie := Some ["TOKEN=t"]; data := "" |}.

Definition unavailable (w : World) (req : Request) : HttpResult :=
  HttpResponse {| status := 503; set_cookie := None; data := "" |}.

Definition kilobyte (w : World) (path : string) : StreamResult :=
  {| ticks := []; written := 1000; finished := Finish |}.

(** A body of 1000 bytes that reports its progress twice, once half way
    and once without a known total. *)
Definition halfway (w : World) (path : string) : StreamResult :=
  {| ticks := [Some (1 # 2); None]; written := 1000; finished := Finish |}.

Definition remuxed (w : World) (i o : string) : FfmpegResult :=
  {| failure := None; output := Some 1000%N |}.

Definition broken : JsError :=
  {| message := "ffmpeg exited with code 1"; response := None |}.

Definition remuxFails (w : World) (i o : string) : FfmpegResult :=
  {| failure := Some broken; output := None |}.

Definition diskFull : JsError :=
  {| message := "ENOSPC: no space left on device, write"; response := None |}.

Definition writeFails (w : World) (path : string) : StreamResult :=
  {| ticks := [Some (1 # 4)]; written := 250; finished := WriterError diskFull |}.

(** A clock that advances 125 ms with every observable event. *)
Definition ticking (w : World) : Z := 125 * Z.of_nat (List.length (events w)).

(** A clock that advances a full second with every observable event. *)
Definition slow (w : World) : Z := 1000 * Z.of_nat (List.length (events w)).

Definition camA : Camera := {| Camera.id := "A"; Camera.name := None |}.
Definition camB : Camera := {| Camera.id := "B"; Camera.name := Some "yard" |}.

Definition withFile (path : string) (size : N) (w : World) : World :=
  setFiles (<[path := size]> (files w)) w.

Definition job (cams : list Camera) (from to : Z) (mp4Flag : option bool) : Args :=
  {| ipAddress := "10.0.0.1"; cameras := cams; args_start := from;
     args_end := to; mp4 := mp4Flag; statusCallback := true;
     auth := [("username", "u"); ("password", "p")] |}.

End Scenario.

(** * Properties *)

(** ** Strings *)

Section Strings.

Lemma append_cons c (a b : string) : String c a +:+ b = String c (a +:+ b).
Proof. reflexivity. Qed.

Lemma append_nil (b : string) : EmptyString +:+ b = b.
Proof. reflexivity. Qed.

Lemma split_not_nil sep s : Js.split sep s <> [].
Proof.
  destruct s as [|c s]; simpl; [discriminate|].
  destruct (Ascii.eqb c sep); [discriminate|].
  destruct (Js.split sep s); discriminate.
Qed.

Lemma split_absent sep s : occurs sep s = false -> Js.split sep s = [s].
Proof.
  induction s as [|c s IH]; simpl; [reflexivity|].
  intros H. apply orb_false_iff in H as [Hc Hs].
  rewrite Hc, (IH Hs). reflexivity.
Qed.

Lemma split_at sep a b :
  occurs sep a = false ->
  Js.split sep (a +:+ String sep b) = a :: Js.split sep b.
Proof.
  induction a as [|c a IH]; rewrite ?append_nil, ?append_cons; simpl.
  - intros _. rewrite Ascii.eqb_refl. reflexivity.
  - intros H. apply orb_false_iff in H as [Hc Ha].
    rewrite Hc, (IH Ha). reflexivity.
Qed.

Lemma split_present sep s :
  occurs sep s = true -> (2 <= List.length (Js.split sep s))%nat.
Proof.
  induction s as [|c s IH]; simpl; [discriminate|].
  destruct (Ascii.eqb c sep) eqn:Hc; simpl.
  - intros _. pose proof (split_not_nil sep s).
    destruct (Js.split sep s); [congruence | simpl; lia].
  - intros H. specialize (IH H).
    destruct (Js.split sep s); simpl in *; lia.
Qed.

Lemma trimStart_spec s :
  exists pre, s = pre +:+ Js.trimStart s /\ blank pre = true /\
              startsBlank (Js.trimStart s) = false.
Proof.
  induction s as [|c s (pre & E & B & S)]; simpl.
  - exists EmptyString. auto.
  - destruct (Js.isWhiteSpace c) eqn:Hc.
    + exists (String c pre). rewrite append_cons. simpl. rewrite Hc, B, <- E. auto.
    + exists EmptyString. rewrite append_nil. auto.
Qed.

Lemma trimEnd_spec s :
  exists post, s = Js.trimEnd s +:+ post /\ blank post = true /\
               endsBlank (Js.trimEnd s) = false.
Proof.
  induction s as [|c s (post & E & B & S)]; simpl.
  - exists EmptyString. auto.
  - destruct (Js.trimEnd s) as [|c' t] eqn:Ht.
    + rewrite append_nil in E. subst post.
      destruct (Js.isWhiteSpace c) eqn:Hc.
      * exists (String c s). rewrite append_nil. simpl. rewrite Hc, B. auto.
      * exists s. rewrite append_cons, append_nil. simpl. rewrite Hc. auto.
    + exists post. rewrite append_cons, <- E. auto.
Qed.

Lemma trimEnd_startsBlank s :
  startsBlank s = false -> startsBlank (Js.trimEnd s) = false.
Proof.
  destruct s as [|c s]; simpl; [reflexivity|].
  intros Hc. destruct (Js.trimEnd s); simpl; rewrite ?Hc; simpl; auto.
Qed.

Lemma append_assoc (a b c : string) : (a +:+ b) +:+ c = a +:+ (b +:+ c).
Proof.
  induction a as [|x a IH]; [reflexivity|].
  rewrite !append_cons, IH. reflexivity.
Qed.

Lemma trim_spec s : Trimmed s (Js.trim s).
Proof.
  unfold Js.trim.
  destruct (trimStart_spec s) as (pre & E1 & B1 & S1).
  destruct (trimEnd_spec (Js.trimStart s)) as (post & E2 & B2 & S2).
  exists pre, post. repeat split; auto using trimEnd_startsBlank.
  rewrite <- E2. exact E1.
Qed.

End Strings.

(** ** Cookie jars *)

Section CookieJars.

Implicit Types (h : Heap) (jar : gmap string string).

Lemma deref_last h jar : deref (h ++ [jar]) (List.length h) = jar.
Proof.
  unfold deref. induction h as [|x h IH]; simpl; [reflexivity | exact IH].
Qed.

Lemma deref_insert h r jar :
  (r < List.length h)%nat -> deref (<[r := jar]> h) r = jar.
Proof.
  intros Hr. unfold deref. rewrite list_lookup_insert_eq by exact Hr. reflexivity.
Qed.

Lemma insert_last h jar jar' :
  <[List.length h := jar']> (h ++ [jar]) = h ++ [jar'].
Proof.
  induction h as [|x h IH]; simpl; [reflexivity | f_equal; exact IH].
Qed.

Lemma setProperty_keeps key value jar k :
  is_Some (jar !! k) -> is_Some (Js.setProperty key value jar !! k).
Proof.
  unfold Js.setProperty. destruct (String.eqb key "__proto__"); [auto|].
  intros H. destruct (decide (key = k)) as [->|Hne].
  - rewrite lookup_insert_eq. eauto.
  - rewrite lookup_insert_ne; auto.
Qed.

(** A cookie with [;]-separated attributes is dropped. *)
Lemma safeUpdateCookie_attributes cookie r h :
  occurs ";" cookie = true -> safeUpdateCookie cookie r h = h.
Proof.
  intros H. apply split_present in H. unfold safeUpdateCookie.
  destruct (Nat.eqb_spec (List.length (Js.split ";" cookie)) 1) as [E|E];
    [lia | reflexivity].
Qed.

(** On the jar allocated last, [safeUpdateCookie] replaces that jar and
    nothing else, and keeps every key. *)
Lemma safeUpdateCookie_last cookie h jar :
  exists jar',
    safeUpdateCookie cookie (List.length h) (h ++ [jar]) = h ++ [jar'] /\
    forall k, is_Some (jar !! k) -> is_Some (jar' !! k).
Proof.
  unfold safeUpdateCookie.
  destruct (negb _); [eauto|].
  destruct (Js.split ";" cookie !! 0%nat) as [first|]; [|eauto].
  destruct (Js.split "=" first !! 0%nat) as [key|]; [|eauto].
  destruct (Js.split "=" first !! 1%nat) as [value|]; [|eauto].
  rewrite deref_last, insert_last.
  eexists; split; [reflexivity|]. intros k. apply setProperty_keeps.
Qed.

Lemma forEach_last cs h jar :
  exists jar',
    fold_left (fun h' cookie => safeUpdateCookie cookie (List.length h) h')
      cs (h ++ [jar]) = h ++ [jar'] /\
    forall k, is_Some (jar !! k) -> is_Some (jar' !! k).
Proof.
  revert jar. induction cs as [|c cs IH]; intros jar; simpl; [eauto|].
  destruct (safeUpdateCookie_last c h jar) as (jar1 & -> & K1).
  destruct (IH jar1) as (jar2 & -> & K2). eauto.
Qed.

(** The shape of every merge: one new jar at the end of the heap, holding
    at least the keys of the caller's jar; the caller's heap is a prefix of
    the new one, so no object the caller can reach has changed. *)
Lemma mergeSetCookie_shape setCookieHeader cookies h :
  exists jar',
    mergeSetCookie setCookieHeader cookies h = (List.length h, h ++ [jar']) /\
    forall k, is_Some (deref h cookies !! k) -> is_Some (jar' !! k).
Proof.
  unfold mergeSetCookie, allocObject.
  destruct setCookieHeader as [cs|]; [|eauto].
  destruct (forEach_last cs h (deref h cookies)) as (jar' & E & K).
  rewrite E. eauto.
Qed.

(** A cookie [key=value=rest] without attributes stores the trimmed [key]
    with the trimmed [value]; [rest] is lost. *)
Lemma safeUpdateCookie_pieces key value rest r h :
  occurs ";" key = false -> occurs "=" key = false ->
  occurs ";" value = false -> occurs "=" value = false ->
  occurs ";" rest = false ->
  safeUpdateCookie (key +:+ String "=" (value +:+ String "=" rest)) r h
  = <[r := Js.setProperty (Js.trim key) (Js.trim value) (deref h r)]> h.
Proof.
  intros K1 K2 V1 V2 R1. unfold safeUpdateCookie.
  assert (Hsemi : occurs ";" (key +:+ String "=" (value +:+ String "=" rest)) = false).
  { clear K2 V2. induction key as [|c key IH]; rewrite ?append_nil, ?append_cons; simpl.
    - induction value as [|c value IH]; rewrite ?append_nil, ?append_cons; simpl.
      + exact R1.
      + simpl in V1. apply orb_false_iff in V1 as [-> V1]. simpl. auto.
    - simpl in K1. apply orb_false_iff in K1 as [-> K1]. simpl. auto. }
  rewrite (split_absent _ _ Hsemi). simpl.
  rewrite (split_at "=" key _ K2), (split_at "=" value _ V2). reflexivity.
Qed.

End CookieJars.

(** C4. Merging a response's cookies is additive and works on a copy.
    For every heap and every jar of the caller: without a [Set-Cookie]
    header the returned jar has the caller's entries; a header value with a
    [;] in it (such as ["a=1; Path=/"]) is dropped, the returned jar has the
    caller's entries; ["a=1"] gives the caller's entries with [a] mapped to
    ["1"]; and whatever the headers are, the result is a new jar placed
    after the caller's objects, none of which changes, holding every key
    the caller's jar holds. *)
Theorem C4_cookie_merge_additive_on_a_copy (h : Heap) (cookies : Ref) :
  mergeSetCookie None cookies h = (List.length h, h ++ [deref h cookies]) /\
  (forall cookie, occurs ";" cookie = true ->
     mergeSetCookie (Some [cookie]) cookies h
     = (List.length h, h ++ [deref h cookies])) /\
  mergeSetCookie (Some ["a=1; Path=/"]) cookies h
  = (List.length h, h ++ [deref h cookies]) /\
  mergeSetCookie (Some ["a=1"]) cookies h
  = (List.length h, h ++ [<["a" := "1"]> (deref h cookies)]) /\
  (forall setCookieHeader, exists jar',
     mergeSetCookie setCookieHeader cookies h = (List.length h, h ++ [jar']) /\
     forall k, is_Some (deref h cookies !! k) -> is_Some (jar' !! k)).
Proof.
  assert (Hdrop : forall cookie, occurs ";" cookie = true ->
            mergeSetCookie (Some [cookie]) cookies h
            = (List.length h, h ++ [deref h cookies])).
  { intros cookie H. unfold mergeSetCookie, allocObject. simpl.
    rewrite (safeUpdateCookie_attributes _ _ _ H). reflexivity. }
  split; [reflexivity|]. split; [exact Hdrop|].
  split; [apply Hdrop; reflexivity|]. split.
  - unfold mergeSetCookie, allocObject. simpl. f_equal.
    unfold safeUpdateCookie. simpl.
    rewrite deref_last, insert_last. reflexivity.
  - intros sc. apply mergeSetCookie_shape.
Qed.

Lemma C4_cookie_merge_witness :
  mergeSetCookie (Some ["sid=7;Secure"]) 0%nat [{["a" := "1"]}]
  = (1%nat, [{["a" := "1"]}; {["a" := "1"]}]).
Proof.
  destruct (C4_cookie_merge_additive_on_a_copy [{["a" := "1"]}] 0%nat)
    as (_ & Hdrop & _).
  apply (Hdrop "sid=7;Secure"). reflexivity.
Defined.

(** C10. A cookie without attributes that holds more than one [=] keeps
    only the text between the first and the second [=] as its value: for
    [key=value=rest] the jar is assigned [value], trimmed, at [key],
    trimmed, and [rest] is discarded. The assignment stores the entry
    unless the trimmed key is [__proto__], which an object never holds as
    an entry of its own. *)
Theorem C10_value_ends_at_second_equals (key value rest : string)
    (r : Ref) (h : Heap) :
  occurs ";" key = false -> occurs "=" key = false ->
  occurs ";" value = false -> occurs "=" value = false ->
  occurs ";" rest = false ->
  (r < List.length h)%nat ->
  let jar' :=
    deref (safeUpdateCookie (key +:+ "=" +:+ value +:+ "=" +:+ rest) r h) r in
  Trimmed key (Js.trim key) /\ Trimmed value (Js.trim value) /\
  jar' = Js.setProperty (Js.trim key) (Js.trim value) (deref h r) /\
  (Js.trim key <> "__proto__" -> jar' !! Js.trim key = Some (Js.trim value)).
Proof.
  intros K1 K2 V1 V2 R1 Hr jar'.
  assert (E : jar' = Js.setProperty (Js.trim key) (Js.trim value) (deref h r)).
  { subst jar'.
    change (key +:+ "=" +:+ value +:+ "=" +:+ rest)
      with (key +:+ String "=" (value +:+ String "=" rest)).
    rewrite safeUpdateCookie_pieces by assumption.
    apply deref_insert, Hr. }
  repeat split; auto using trim_spec.
  intros Hk. rewrite E. unfold Js.setProperty.
  destruct (String.eqb_spec (Js.trim key) "__proto__"); [contradiction|].
  apply lookup_insert_eq.
Qed.

Lemma C10_value_ends_at_second_equals_witness :
  deref (safeUpdateCookie "token=abc=def" 0%nat [∅]) 0%nat !! "token" = Some "abc".
Proof.
  refine (proj2 (proj2 (proj2
    (C10_value_ends_at_second_equals "token" "abc" "def" 0%nat [∅]
       eq_refl eq_refl eq_refl eq_refl eq_refl _))) _).
  - simpl. lia.
  - discriminate.
Defined.

(** ** Throughput *)

Section Throughput.

Lemma round_near (q : Q) :
  (q - (1 # 2) <= inject_Z (Qfloor (q + (1 # 2))) <= q + (1 # 2))%Q.
Proof.
  pose proof (Qfloor_le (q + (1 # 2))) as Hle.
  pose proof (Qlt_floor (q + (1 # 2))) as Hlt.
  rewrite inject_Z_plus in Hlt. change (inject_Z 1) with 1%Q in Hlt.
  split; lra.
Qed.

Lemma gt_finite (q : Q) (n : Z) :
  Num.gt (Finite q) n = true <-> (inject_Z n < q)%Q.
Proof.
  simpl. rewrite negb_true_iff, <- not_true_iff_false, Qle_bool_iff.
  split; [apply Qnot_le_lt | apply Qlt_not_le].
Qed.

(** A download that starts and ends within the same second is measured
    as zero seconds. *)
Lemma differenceInSeconds_zero (downloadStart downloadEnd : Z) :
  downloadStart <= downloadEnd < downloadStart + 1000 ->
  DateFns.differenceInSeconds downloadEnd downloadStart = 0.
Proof.
  intros H. unfold DateFns.differenceInSeconds, DateFns.differenceInMilliseconds.
  apply Z.quot_small. lia.
Qed.

(** What a zero divisor prints. *)
Lemma throughputString_zero_seconds (size : N) :
  throughputString (Num.div size 0)
  = if (size =? 0)%N then "NaN B" else "Infinity MB".
Proof. simpl. destruct (size =? 0)%N; reflexivity. Qed.

End Throughput.

(** C8. A throughput above 1,000,000 bytes per second is printed as the
    number of megabytes (the throughput divided by 1,000,000) rounded to
    the nearest integer and followed by [" MB"]; a throughput of at most
    1,000,000 as the number of bytes rounded to the nearest integer and
    followed by [" B"]. Exactly 1,000,000 prints ["1000000 B"] and
    1,000,001 prints ["1 MB"]. *)
Theorem C8_throughput_format (q : Q) :
  ((1000000 < q)%Q ->
     exists n : Z,
       throughputString (Finite q) = pretty n +:+ " MB" /\
       (q / 1000000 - (1 # 2) <= inject_Z n <= q / 1000000 + (1 # 2))%Q) /\
  ((q <= 1000000)%Q ->
     exists n : Z,
       throughputString (Finite q) = pretty n +:+ " B" /\
       (q - (1 # 2) <= inject_Z n <= q + (1 # 2))%Q) /\
  throughputString (Finite 1000000) = "1000000 B" /\
  throughputString (Finite 1000001) = "1 MB".
Proof.
  split; [|split; [|split; reflexivity]].
  - intros H. exists (Qfloor (q / 1000000 + (1 # 2))). split.
    + unfold throughputString.
      rewrite (proj2 (gt_finite q 1000000) H).
      unfold Num.divBy, Num.round, Num.toString. rewrite Qfloor_Z. reflexivity.
    + apply round_near.
  - intros H. exists (Qfloor (q + (1 # 2))). split.
    + unfold throughputString.
      destruct (Num.gt (Finite q) 1000000) eqn:E.
      * apply gt_finite in E. change (inject_Z 1000000) with 1000000%Q in E. lra.
      * unfold Num.round, Num.toString. rewrite Qfloor_Z. reflexivity.
    + apply round_near.
Qed.

Lemma C8_throughput_format_witness :
  exists n : Z,
    throughputString (Finite 2500000) = pretty n +:+ " MB" /\
    ((2500000 / 1000000 - (1 # 2) <= inject_Z n <= 2500000 / 1000000 + (1 # 2))%Q).
Proof.
  apply (proj1 (C8_throughput_format 2500000)). reflexivity.
Defined.

(** C9. The divisor of the throughput is not kept away from zero. One
    camera, one window, a one-kilobyte chunk that arrives 500 ms after the
    download started: the elapsed time is 0 whole seconds, the division is
    1000 / 0, and the status the callback receives is ["Infinity MB"]. *)
Theorem C9_subsecond_download_divides_by_zero :
  let rt := Scenario.runtime Scenario.ticking Scenario.ok Scenario.kilobyte
              Scenario.remuxed in
  DateFns.differenceInSeconds 500 0 = 0 /\
  (statuses ∘ events <$> finalWorld
     (fetchVideo rt (Scenario.job [Scenario.camA] 0 60000 None) 1 Scenario.world0))
  = Some [WaitingStatus; DownloadingStatus (Some "100%");
          DownloadThroughputStatus "Infinity MB"].
Proof. split; vm_compute; reflexivity. Qed.

(** ** The skip rule *)

Section SkipRule.

Lemma skipExisting_nonempty (path : string) (w : World) (size : N) :
  files w !! path = Some size -> size <> 0%N ->
  skipExisting path w
  = (Resolved true,
     emit (ConsoleLog (path +:+
             " already exists and is not empty, refusing to overwrite it")) w).
Proof.
  intros Hfile Hsize.
  unfold skipExisting, bind, Fs.existsSync, Fs.statSync_size, ask. cbv beta.
  rewrite bool_decide_eq_true_2 by eauto. cbv beta iota. rewrite Hfile.
  destruct (N.eqb_spec size 0); [contradiction | reflexivity].
Qed.

Lemma skipExisting_empty (path : string) (w : World) :
  files w !! path = Some 0%N ->
  skipExisting path w = (Resolved false, setFiles (delete path (files w)) w).
Proof.
  intros Hfile.
  unfold skipExisting, bind, Fs.existsSync, Fs.statSync_size, Fs.unlinkSync, ask.
  cbv beta. rewrite bool_decide_eq_true_2 by eauto. cbv beta iota.
  rewrite Hfile. cbv beta iota. rewrite (N.eqb_refl 0). cbv beta iota.
  rewrite Hfile. reflexivity.
Qed.

Lemma skipExisting_absent (path : string) (w : World) :
  files w !! path = None -> skipExisting path w = (Resolved false, w).
Proof.
  intros Hfile. unfold skipExisting, bind, Fs.existsSync, ask. cbv beta.
  rewrite bool_decide_eq_false_2 by (rewrite Hfile; intros [? ?]; discriminate).
  reflexivity.
Qed.

End SkipRule.

(** C3. When the destination [.mp4] of a (camera, window) pair exists and
    is not empty, the pair is skipped: the loop body only logs, so no
    request is made, no file and no jar changes, and no output is recorded.
    When it exists and is empty, the body does what it does in the world
    where the file was deleted. *)
Theorem C3_existing_file_skipped_or_replaced (rt : Runtime) (args : Args)
    (currentEnd : Z) (camera : Camera) (currentStart : Z)
    (outputFiles : list OutputFileType) (w : World) (size : N) :
  let mp4Filename := baseFilename rt camera currentStart currentEnd +:+ ".mp4" in
  files w !! mp4Filename = Some size ->
  (size <> 0%N ->
     cameraBody rt args currentEnd camera currentStart outputFiles w
     = (Resolved (DateFns.add currentStart maxMinuteDiff, outputFiles),
        emit (ConsoleLog (mp4Filename +:+
                " already exists and is not empty, refusing to overwrite it")) w)) /\
  (size = 0%N ->
     cameraBody rt args currentEnd camera currentStart outputFiles w
     = cameraBody rt args currentEnd camera currentStart outputFiles
         (setFiles (delete mp4Filename (files w)) w)).
Proof.
  intros mp4Filename Hfile. split; intros Hsize.
  - unfold cameraBody, bind. fold mp4Filename.
    rewrite (skipExisting_nonempty _ _ _ Hfile Hsize). reflexivity.
  - subst size. unfold cameraBody, bind. fold mp4Filename.
    rewrite (skipExisting_empty _ _ Hfile).
    rewrite skipExisting_absent by (simpl; apply lookup_delete_eq).
    reflexivity.
Qed.

Lemma C3_existing_file_witness :
  let rt := Scenario.runtime Scenario.slow Scenario.ok Scenario.kilobyte
              Scenario.remuxed in
  let w := Scenario.withFile "0_60000_A.mp4" 7 Scenario.world0 in
  cameraBody rt (Scenario.job [Scenario.camA] 0 60000 None) 60000 Scenario.camA 0 [] w
  = (Resolved (3600000, []),
     emit (ConsoleLog
       "0_60000_A.mp4 already exists and is not empty, refusing to overwrite it") w).
Proof.
  intros rt w.
  refine (proj1 (C3_existing_file_skipped_or_replaced rt
            (Scenario.job [Scenario.camA] 0 60000 None) 60000 Scenario.camA 0 [] w 7 _) _).
  - vm_compute. reflexivity.
  - discriminate.
Defined.

(** ** Retries *)

Section Retries.

Variable rt : Runtime.

Lemma attempts_app (a b : list Event) : attempts (a ++ b) = attempts b ++ attempts a.
Proof. unfold attempts. rewrite rev_app_distr, omap_app. reflexivity. Qed.

Lemma delays_app (a b : list Event) : delays (a ++ b) = delays b ++ delays a.
Proof. unfold delays. rewrite rev_app_distr, omap_app. reflexivity. Qed.

Lemma RetryTrace_stop (cap : nat) (r : HttpResult) :
  retryable r = false -> RetryTrace (S cap) [r].
Proof.
  intros Hr. unfold RetryTrace. simpl. split; [lia | split].
  - intros i r' _ Hi. lia.
  - intros r' [= <-] Hr'. congruence.
Qed.

Lemma RetryTrace_cap (r : HttpResult) : RetryTrace 1 [r].
Proof.
  unfold RetryTrace. simpl. split; [lia | split].
  - intros i r' _ Hi. lia.
  - reflexivity.
Qed.

Lemma RetryTrace_again (cap : nat) (r : HttpResult) (rs : list HttpResult) :
  retryable r = true -> RetryTrace cap rs -> RetryTrace (S cap) (r :: rs).
Proof.
  intros Hr (Hlen & Hinit & Hlast). unfold RetryTrace. simpl.
  split; [lia | split].
  - intros [|i] r' Hi Hlt; simpl in Hi.
    + congruence.
    + apply (Hinit i r' Hi). lia.
  - intros r' Hr' Hret. f_equal. apply (Hlast r'); [|exact Hret].
    destruct rs as [|x rs]; [simpl in Hlen; lia | exact Hr'].
Qed.

(** One attempt: it is recorded, and it rejects with an error that
    [retryCondition] accepts exactly when what it met is [retryable]. *)
Lemma attempt_cases (req : Request) (w : World) :
  let res := http rt w req in
  let w1 := emit (HttpAttempt req res) w in
  (exists r, Axios.attempt rt req w = (Resolved r, w1) /\ retryable res = false) \/
  (exists e, Axios.attempt rt req w = (Rejected e, w1) /\
             retryCondition retryOptions e = retryable res).
Proof.
  intros res w1. unfold Axios.attempt. fold res. fold w1.
  destruct res as [msg|r]; simpl.
  - right. eauto.
  - unfold Axios.validateStatus.
    destruct (200 <=? status r) eqn:H2; destruct (status r <? 300) eqn:H3; simpl;
      try (right; eexists; split; [reflexivity|reflexivity]).
    left. eexists; split; [reflexivity|]. lia.
Qed.

(** A request under the program's retry options, with [remaining] retries
    left: it only adds attempts and zero-delay timers to the events, and
    the attempts form a [RetryTrace] capped at [remaining + 1]. *)
Lemma retrying_unfold (o : AxiosRetryOptions) (req : Request)
    (remaining retryCount : nat) (w : World) :
  Axios.retrying rt o remaining retryCount req w
  = match Axios.attempt rt req w with
    | (Resolved r, w1) => (Resolved r, w1)
    | (Rejected error, w1) =>
        match remaining with
        | S remaining' =>
            if retryCondition o error then
              Axios.retrying rt o remaining' (S retryCount) req
                (emit (SetTimeout (retryDelay o (S retryCount) error)) w1)
            else (Rejected error, w1)
        | O => (Rejected error, w1)
        end
    end.
Proof. destruct remaining; reflexivity. Qed.

(** What a request that stops after one attempt leaves behind. *)
Lemma single_attempt (req : Request) (res : HttpResult) (cap : nat) (w : World) :
  RetryTrace cap [res] ->
  exists new,
    let w' := emit (HttpAttempt req res) w in
    events w' = new ++ events w /\
    files w' = files w /\ jars w' = jars w /\ axiosRetry w' = axiosRetry w /\
    RetryTrace cap (attempts new) /\
    Forall (fun d => d = 0) (delays new) /\
    Forall (fun e => (exists res, e = HttpAttempt req res) \/ e = SetTimeout 0) new.
Proof.
  intros Htr. exists [HttpAttempt req res]. cbv zeta.
  do 4 (split; [reflexivity|]). split; [exact Htr|].
  split; repeat constructor. eauto.
Qed.

(** A request under the program's retry options, with [remaining] retries
    left: it only adds attempts and zero-delay timers to the events, and
    the attempts form a [RetryTrace] capped at [remaining + 1]. *)
Lemma retrying_trace (req : Request) (remaining : nat) :
  forall (retryCount : nat) (w : World),
  exists new,
    let w' := snd (Axios.retrying rt retryOptions remaining retryCount req w) in
    events w' = new ++ events w /\
    files w' = files w /\ jars w' = jars w /\ axiosRetry w' = axiosRetry w /\
    RetryTrace (S remaining) (attempts new) /\
    Forall (fun d => d = 0) (delays new) /\
    Forall (fun e => (exists res, e = HttpAttempt req res) \/ e = SetTimeout 0) new.
Proof.
  induction remaining as [|remaining IH]; intros retryCount w;
    rewrite retrying_unfold;
    destruct (attempt_cases req w) as [(r & E & Hr) | (e & E & He)]; rewrite E.
  - apply single_attempt, RetryTrace_cap.
  - apply single_attempt, RetryTrace_cap.
  - apply single_attempt, RetryTrace_stop, Hr.
  - destruct (retryCondition retryOptions e) eqn:Hc.
    + destruct (IH (S retryCount)
                  (emit (SetTimeout (retryDelay retryOptions (S retryCount) e))
                     (emit (HttpAttempt req (http rt w req)) w)))
        as (new & Hev & Hf & Hj & Ha & Htr & Hd & Hn).
      exists (new ++ [SetTimeout 0; HttpAttempt req (http rt w req)]).
      cbv zeta. rewrite Hev, Hf, Hj, Ha, <- app_assoc.
      rewrite attempts_app, delays_app.
      do 4 (split; [reflexivity|]). split; [|split].
      * apply (RetryTrace_again _ (http rt w req)); [congruence | exact Htr].
      * apply (Forall_cons_2 _ 0); [reflexivity | exact Hd].
      * apply Forall_app. split; [exact Hn|].
        constructor; [right; reflexivity|].
        constructor; [left; eauto | constructor].
    + apply single_attempt, RetryTrace_stop. congruence.
Qed.

End Retries.

(** ** What each step does to the world *)

Section Steps.

Variable rt : Runtime.

Lemma notify_run (cb : bool) (s : Status) (w : World) :
  exists w',
    notify cb s w = (Resolved tt, w') /\
    events w' = notified cb s ++ events w /\
    files w' = files w /\ jars w' = jars w /\ axiosRetry w' = axiosRetry w.
Proof. destruct cb; eexists; (split; [reflexivity|]); auto. Qed.

Lemma orEmptyJar_run (cookies : option Ref) (w : World) :
  exists r h, orEmptyJar cookies w = (Resolved r, setJars h w).
Proof.
  destruct cookies as [r|]; simpl.
  - exists r, (jars w). destruct w; reflexivity.
  - eexists _, _. reflexivity.
Qed.

Lemma mergeResponseCookies_run (sc : option (list string)) (cookies : Ref)
    (w : World) :
  exists r h, mergeResponseCookies sc cookies w = (Resolved r, setJars h w).
Proof.
  unfold mergeResponseCookies.
  destruct (mergeSetCookie sc cookies (jars w)) as [r h]. eauto.
Qed.

Lemma progress_events (cb : bool) (ps : list (option Q)) (w : World) :
  let w' := fold_left (progress rt cb) ps w in
  events w' = progressEvents rt cb ps ++ events w /\
  files w' = files w /\ jars w' = jars w /\ axiosRetry w' = axiosRetry w.
Proof.
  revert w. induction ps as [|p ps IH]; intros w; simpl; [auto|].
  destruct (IH (progress rt cb w p)) as (Hev & Hf & Hj & Ha).
  unfold progress in *.
  destruct (notify_run cb (DownloadingStatus (Some (percent rt p))) w)
    as (w1 & E & Hev1 & Hf1 & Hj1 & Ha1).
  rewrite E in *. simpl in *.
  rewrite Hev, Hf, Hj, Ha, Hev1, Hf1, Hj1, Ha1.
  repeat split; auto.
  unfold progressEvents. simpl. rewrite rev_app_distr, <- app_assoc.
  f_equal. f_equal. destruct cb; reflexivity.
Qed.

Lemma attempts_notified (cb : bool) (s : Status) : attempts (notified cb s) = [].
Proof. destruct cb; reflexivity. Qed.

Lemma attempts_progressEvents (cb : bool) (ps : list (option Q)) :
  attempts (progressEvents rt cb ps) = [].
Proof.
  unfold progressEvents, attempts. rewrite rev_involutive.
  induction ps as [|p ps IH]; [reflexivity|].
  rewrite bind_cons, omap_app, IH. destruct cb; reflexivity.
Qed.

(** How the piping ends, by the event that settles the promise. *)
Lemma pipe_run (filename : string) (cb : bool) (uc : Ref) (w : World) :
  let s := stream rt w filename in
  let ended status :=
    notified cb status ++ progressEvents rt cb (ticks s) ++ events w in
  exists w',
    files w' = <[filename := written s]> (files w) /\
    jars w' = jars w /\ axiosRetry w' = axiosRetry w /\
    match finished s with
    | Finish =>
        pipe rt filename cb uc w = (Resolved uc, w') /\
        events w' = ended (DownloadingStatus (Some "100%"))
    | WriterError err =>
        pipe rt filename cb uc w = (Rejected err, w') /\
        events w' = ended (ErrorStatus err ("Error writing to the file " +:+ filename))
    | ResponseError err =>
        pipe rt filename cb uc w = (Rejected err, w') /\
        events w' = ended (ErrorStatus err "Error reading the response from the server")
    end.
Proof.
  intros s ended. unfold pipe. fold s.
  destruct (progress_events cb (ticks s) w) as (Hev & Hf & Hj & Ha).
  set (w1 := fold_left (progress rt cb) (ticks s) w) in *.
  set (w2 := setFiles (<[filename := written s]> (files w1)) w1).
  assert (Hev2 : events w2 = progressEvents rt cb (ticks s) ++ events w) by exact Hev.
  assert (Hf2 : files w2 = <[filename := written s]> (files w))
    by (simpl; rewrite Hf; reflexivity).
  assert (Hj2 : jars w2 = jars w) by exact Hj.
  assert (Ha2 : axiosRetry w2 = axiosRetry w) by exact Ha.
  clearbody w2. unfold bind, ended.
  destruct (finished s) as [|err|err].
  - destruct (notify_run cb (DownloadingStatus (Some "100%")) w2)
      as (w3 & -> & Hev3 & Hf3 & Hj3 & Ha3).
    exists w3. rewrite Hev3, Hf3, Hj3, Ha3, Hev2. auto.
  - destruct (notify_run cb
        (ErrorStatus err ("Error writing to the file " +:+ filename)) w2)
      as (w3 & -> & Hev3 & Hf3 & Hj3 & Ha3).
    exists w3. rewrite Hev3, Hf3, Hj3, Ha3, Hev2. auto.
  - destruct (notify_run cb
        (ErrorStatus err "Error reading the response from the server") w2)
      as (w3 & -> & Hev3 & Hf3 & Hj3 & Ha3).
    exists w3. rewrite Hev3, Hf3, Hj3, Ha3, Hev2. auto.
Qed.

(** A request made once the program's retry options are installed. *)
Lemma request_trace (req : Request) (w : World) :
  axiosRetry w = Some retryOptions ->
  exists new,
    let w' := snd (Axios.request rt req w) in
    events w' = new ++ events w /\
    files w' = files w /\ jars w' = jars w /\ axiosRetry w' = axiosRetry w /\
    RetryTrace 4 (attempts new) /\
    Forall (fun d => d = 0) (delays new) /\
    Forall (fun e => (exists res, e = HttpAttempt req res) \/ e = SetTimeout 0) new.
Proof.
  intros Hw. pose proof (retrying_trace rt req 3 0%nat w) as H.
  unfold Axios.request. rewrite Hw in *. exact H.
Qed.

End Steps.

Section Requests.

Variable rt : Runtime.

Lemma delays_notified (cb : bool) (s : Status) : delays (notified cb s) = [].
Proof. destruct cb; reflexivity. Qed.

Lemma delays_progressEvents (cb : bool) (ps : list (option Q)) :
  delays (progressEvents rt cb ps) = [].
Proof.
  unfold progressEvents, delays. rewrite rev_involutive.
  induction ps as [|p ps IH]; [reflexivity|].
  rewrite bind_cons, omap_app, IH. destruct cb; reflexivity.
Qed.

(** [postWithCookies] installs the retry options, makes its request under
    them, and touches the events in no other way. *)
Lemma postWithCookies_trace (url : string) (payload : list (string * string))
    (cookies : option Ref) (w : World) :
  exists new,
    let w' := snd (postWithCookies rt url payload cookies w) in
    events w' = new ++ events w /\
    files w' = files w /\ axiosRetry w' = Some retryOptions /\
    RetryTrace 4 (attempts new) /\
    Forall (fun d => d = 0) (delays new).
Proof.
  unfold postWithCookies, bind.
  destruct (orEmptyJar_run cookies w) as (r & h & ->).
  unfold ask, update. cbv beta iota.
  set (req := {| method := POST; url := url;
                 cookie := cookieHeader (deref (jars (setJars h w)) r);
                 body := Some (URLSearchParams rt payload) |}).
  set (w1 := setAxiosRetry retryOptions (setJars h w)).
  destruct (request_trace rt req w1 eq_refl)
    as (new & Hev & Hf & Hj & Ha & Htr & Hd & _).
  exists new. cbv zeta in *.
  destruct (Axios.request rt req w1) as [[resp|e] w2]; simpl in *.
  - destruct (mergeResponseCookies_run (set_cookie resp) r w2) as (r' & h' & ->).
    simpl. rewrite Hev, Hf, Ha. auto.
  - rewrite Hev, Hf, Ha. auto.
Qed.

(** The download makes its one request under the options the login
    installed; the statuses around it are no attempts. *)
Lemma getBinaryDataWithCookies_trace (url : string) (cookies : option Ref)
    (filename : string) (cb : bool) (w : World) :
  axiosRetry w = Some retryOptions ->
  exists new,
    let w' := snd (getBinaryDataWithCookies rt url cookies filename cb w) in
    events w' = new ++ events w /\
    axiosRetry w' = Some retryOptions /\
    RetryTrace 4 (attempts new) /\
    Forall (fun d => d = 0) (delays new).
Proof.
  intros Hw. unfold getBinaryDataWithCookies, startDownload, bind.
  destruct (orEmptyJar_run cookies w) as (r & h & ->).
  unfold ask, Fs.createWriteStream, update. cbv beta iota.
  set (w0 := setFiles _ (setJars h w)).
  destruct (notify_run cb WaitingStatus w0) as (w1 & -> & Hev1 & _ & _ & Ha1).
  set (req := {| method := GET; url := url;
                 cookie := cookieHeader (deref (jars (setJars h w)) r);
                 body := None |}).
  assert (Hw1 : axiosRetry w1 = Some retryOptions) by (rewrite Ha1; exact Hw).
  destruct (request_trace rt req w1 Hw1)
    as (new & Hev & _ & _ & Ha & Htr & Hd & _).
  cbv zeta in *.
  destruct (Axios.request rt req w1) as [[resp|e] w2]; simpl in Hev, Ha.
  - destruct (mergeResponseCookies_run (set_cookie resp) r w2) as (r' & h' & ->).
    destruct (pipe_run rt filename cb r' (setJars h' w2)) as (w3 & _ & _ & Ha3 & Hend).
    set (s := stream rt (setJars h' w2) filename) in *.
    assert (Hany : exists status,
               snd (pipe rt filename cb r' (setJars h' w2)) = w3 /\
               events w3 = notified cb status ++ progressEvents rt cb (ticks s)
                             ++ events (setJars h' w2)).
    { destruct (finished s); destruct Hend as [-> ->]; eauto. }
    destruct Hany as (status & -> & Hev3).
    exists (notified cb status ++ progressEvents rt cb (ticks s) ++ new
              ++ notified cb WaitingStatus).
    rewrite Hev3. simpl events. rewrite Hev, Hev1, Ha3. simpl axiosRetry.
    rewrite Ha, Hw1. rewrite <- !app_assoc.
    split; [reflexivity|]. split; [reflexivity|].
    rewrite !attempts_app, !delays_app.
    rewrite !attempts_notified, attempts_progressEvents.
    rewrite !delays_notified, delays_progressEvents.
    rewrite !app_nil_r. simpl. auto.
  - exists (new ++ notified cb WaitingStatus). simpl.
    rewrite Hev, Hev1, Ha, Hw1, <- app_assoc.
    split; [reflexivity|]. split; [reflexivity|].
    rewrite attempts_app, delays_app, attempts_notified, delays_notified.
    simpl. auto.
Qed.

(** After the login the retry options are installed, whatever came of it. *)
Lemma getCookies_installs (authPayload : AuthPayload) (ipAddress : string)
    (w : World) :
  axiosRetry (snd (getCookies rt authPayload ipAddress w)) = Some retryOptions.
Proof.
  unfold getCookies, bind, newObject, allocObject. cbv beta iota zeta.
  set (w1 := setJars _ w).
  destruct (postWithCookies_trace
              ("https://" +:+ ipAddress +:+ ":443/api/auth/login")
              authPayload
              (Some (List.length (jars w))) w1)
    as (new & _ & _ & Ha & _).
  cbv zeta in Ha.
  destruct (postWithCookies _ _ _ _ w1) as [[r|e] w2]; exact Ha.
Qed.

End Requests.

(** C7 (as the code has it). Every POST and GET of the HTTP layer is
    attempted at most 4 times in total: the first attempt and up to 3
    retries. A further attempt is made exactly when the previous one met a
    failure at the network level or a status of 400 or more, and the cap is
    not reached; every retry is scheduled with a delay of 0. This holds of
    any request made once the retry options are installed, of
    [postWithCookies], which installs them itself, and of
    [getBinaryDataWithCookies] once they are installed, as they are after
    the login that precedes every download. *)
Theorem C7_up_to_four_attempts_without_delay (rt : Runtime) :
  (forall req w, axiosRetry w = Some retryOptions ->
     exists new,
       events (snd (Axios.request rt req w)) = new ++ events w /\
       RetryTrace 4 (attempts new) /\ Forall (fun d => d = 0) (delays new)) /\
  (forall url payload cookies w,
     exists new,
       events (snd (postWithCookies rt url payload cookies w)) = new ++ events w /\
       RetryTrace 4 (attempts new) /\ Forall (fun d => d = 0) (delays new)) /\
  (forall url cookies filename cb w, axiosRetry w = Some retryOptions ->
     exists new,
       events (snd (getBinaryDataWithCookies rt url cookies filename cb w))
       = new ++ events w /\
       RetryTrace 4 (attempts new) /\ Forall (fun d => d = 0) (delays new)) /\
  (forall authPayload ipAddress w,
     axiosRetry (snd (getCookies rt authPayload ipAddress w)) = Some retryOptions).
Proof.
  split; [|split; [|split]]; [| | |apply getCookies_installs].
  - intros req w Hw.
    destruct (request_trace rt req w Hw) as (new & Hev & _ & _ & _ & Htr & Hd & _).
    eauto.
  - intros url payload cookies w.
    destruct (postWithCookies_trace rt url payload cookies w)
      as (new & Hev & _ & _ & Htr & Hd).
    eauto.
  - intros url cookies filename cb w Hw.
    destruct (getBinaryDataWithCookies_trace rt url cookies filename cb w Hw)
      as (new & Hev & _ & Htr & Hd).
    eauto.
Qed.

Lemma C7_request_witness :
  let rt := Scenario.runtime Scenario.slow Scenario.unavailable
              Scenario.kilobyte Scenario.remuxed in
  let req := {| method := GET; url := "https://10.0.0.1:443/x"; cookie := "";
                body := None |} in
  let w := setAxiosRetry retryOptions Scenario.world0 in
  exists new,
    events (snd (Axios.request rt req w)) = new ++ events w /\
    RetryTrace 4 (attempts new) /\ Forall (fun d => d = 0) (delays new).
Proof.
  intros rt req w.
  apply (proj1 (C7_up_to_four_attempts_without_delay rt) req w). reflexivity.
Defined.

(** C7 as the spec words it (at most 3 attempts in total) fails: against a
    recorder that answers 503 to everything, the login POST is put on the
    wire 4 times. *)
Lemma C7_three_attempts_counterexample :
  let rt := Scenario.runtime Scenario.slow Scenario.unavailable
              Scenario.kilobyte Scenario.remuxed in
  List.length
    (attempts (events (snd (postWithCookies rt "https://10.0.0.1:443/api/auth/login"
                              [("username", "u"); ("password", "p")] None
                              Scenario.world0))))
  = 4%nat.
Proof. vm_compute. reflexivity. Qed.

(** ** Stream errors *)

(** X23. Once the response has arrived and the three handlers are in
    place, with a callback that returns: an ['error'] of the write stream
    makes the callback receive an [Error] status with the error and the
    text ["Error writing to the file "] followed by the path, after which
    the download rejects with that error; an ['error'] of the response
    stream does the same with the text
    ["Error reading the response from the server"]. In both cases the
    status is the last event and no further request is made: the
    downloader does not retry. *)
Theorem stream_error_reported_then_rejected (rt : Runtime) (url : string)
    (cookies : option Ref) (filename : string) (cb : bool)
    (w w1 : World) (uc : Ref) (err : JsError) :
  startDownload rt url cookies filename cb w = (Resolved uc, w1) ->
  let s := stream rt w1 filename in
  let outcome msg w2 :=
    getBinaryDataWithCookies rt url cookies filename cb w = (Rejected err, w2) /\
    events w2 = notified cb (ErrorStatus err msg)
                  ++ progressEvents rt cb (ticks s) ++ events w1 /\
    attempts (events w2) = attempts (events w1) in
  (finished s = WriterError err ->
     exists w2, outcome ("Error writing to the file " +:+ filename) w2) /\
  (finished s = ResponseError err ->
     exists w2, outcome "Error reading the response from the server" w2).
Proof.
  intros Hstart s outcome. subst outcome. cbv beta.
  unfold getBinaryDataWithCookies, bind. rewrite Hstart.
  destruct (pipe_run rt filename cb uc w1) as (w2 & _ & _ & _ & Hend).
  fold s in Hend.
  split; intros Hfin; rewrite Hfin in Hend; destruct Hend as [Hrun Hev];
    exists w2; (split; [exact Hrun|]); (split; [exact Hev|]);
    rewrite Hev, !attempts_app, attempts_notified, attempts_progressEvents,
      !app_nil_r; reflexivity.
Qed.

Lemma stream_error_witness :
  let rt := Scenario.runtime Scenario.slow Scenario.ok Scenario.writeFails
              Scenario.remuxed in
  exists w2,
    getBinaryDataWithCookies rt "https://10.0.0.1:443/x" None "clip.mp4" true
      Scenario.world0 = (Rejected Scenario.diskFull, w2) /\
    statuses (events w2)
    = [WaitingStatus; DownloadingStatus (Some "25%");
       ErrorStatus Scenario.diskFull "Error writing to the file clip.mp4"].
Proof.
  intros rt.
  edestruct (stream_error_reported_then_rejected rt "https://10.0.0.1:443/x"
               None "clip.mp4" true Scenario.world0) as [Hwrite _].
  { vm_compute. reflexivity. }
  destruct Hwrite as (w2 & Hrun & Hev & _).
  { vm_compute. reflexivity. }
  exists w2. split; [exact Hrun|]. rewrite Hev. vm_compute. reflexivity.
Defined.

(** ** The loops and their schedule *)

Section Loops.

Variable rt : Runtime.
Variable args : Args.

Lemma cameraBody_start (currentEnd : Z) (camera : Camera) (currentStart : Z)
    (out : list OutputFileType) (w w' : World) (st : Z * list OutputFileType) :
  cameraBody rt args currentEnd camera currentStart out w = (Resolved st, w') ->
  fst st = DateFns.add currentStart maxMinuteDiff.
Proof.
  unfold cameraBody, bind, ret.
  destruct (skipExisting _ w) as [[[|]|e] w1]; [intros [= <- _]; reflexivity| |discriminate].
  destruct (download _ _ _ _ w1) as [[[]|e] w2]; [|discriminate].
  destruct (convert _ _ _ _ _ w2) as [[[]|e] w3]; [|discriminate].
  intros [= <- _]. reflexivity.
Qed.

Lemma runJobs_app (js1 js2 : list Job) (out : list OutputFileType) (w : World) :
  runJobs rt args (js1 ++ js2) out w
  = bind (runJobs rt args js1 out) (runJobs rt args js2) w.
Proof.
  revert out w. induction js1 as [|j js1 IH]; intros out w; simpl; [reflexivity|].
  unfold bind in *.
  destruct (runJob rt args j out w) as [[out1|e] w1]; [apply IH | reflexivity].
Qed.

(** The inner loop is its jobs run in order, and it leaves [currentStart]
    one hour further for every camera. *)
Lemma forCameras_runJobs (currentEnd : Z) (cams : list Camera) :
  forall (currentStart : Z) (out : list OutputFileType) (w : World),
  forCameras rt args currentEnd cams currentStart out w
  = match runJobs rt args (snd (cameraJobs currentEnd cams currentStart)) out w with
    | (Resolved out', w') =>
        (Resolved (fst (cameraJobs currentEnd cams currentStart), out'), w')
    | (Rejected e, w') => (Rejected e, w')
    end.
Proof.
  induction cams as [|camera rest IH]; intros cs out w; simpl; [reflexivity|].
  specialize (IH (DateFns.add cs maxMinuteDiff)).
  destruct (cameraJobs currentEnd rest (DateFns.add cs maxMinuteDiff))
    as [final js] eqn:Ejs.
  simpl in *. unfold runJob, bind. simpl.
  destruct (cameraBody rt args currentEnd camera cs out w) as [[st|e] w1] eqn:Ebody;
    [|reflexivity].
  rewrite (cameraBody_start _ _ _ _ _ _ _ Ebody). unfold ret. apply IH.
Qed.

(** The whole loop is its schedule run job by job. *)
Lemma whileLoop_runJobs (fuel : nat) :
  forall (currentStart : Z) (out : list OutputFileType) (w : World) (js : list Job),
  jobs fuel (cameras args) (args_end args) currentStart = Some js ->
  whileLoop rt args fuel currentStart out w = Some (runJobs rt args js out w).
Proof.
  induction fuel as [|fuel IH]; intros cs out w js; simpl;
    destruct (DateFns.isBefore cs (args_end args)); try discriminate;
    try (intros [= <-]; reflexivity).
  rewrite forCameras_runJobs.
  destruct (cameraJobs (windowEnd (args_end args) cs) (cameras args) cs)
    as [next js1].
  destruct (jobs fuel (cameras args) (args_end args) next) as [rest|] eqn:Erest;
    [|discriminate].
  intros [= <-]. rewrite runJobs_app. unfold bind. simpl.
  destruct (runJobs rt args js1 out w) as [[out'|e] w']; [|reflexivity].
  simpl. apply IH, Erest.
Qed.

(** A job that rejects ends the run with its error, in the world it left. *)
Lemma fetchVideo_rejects (fuel : nat) (js1 js2 : list Job) (j : Job)
    (out1 : list OutputFileType) (w0 w1 w2 : World) (e : JsError) :
  jobs fuel (cameras args) (args_end args) (args_start args)
  = Some (js1 ++ j :: js2) ->
  runJobs rt args js1 [] w0 = (Resolved out1, w1) ->
  cameraBody rt args (job_end j) (job_camera j) (job_start j) out1 w1
  = (Rejected e, w2) ->
  fetchVideo rt args fuel w0 = Some (Rejected e, w2).
Proof.
  intros Hjobs Hbefore Hbody. unfold fetchVideo.
  rewrite (whileLoop_runJobs _ _ _ _ _ Hjobs), runJobs_app.
  unfold bind. rewrite Hbefore. simpl. unfold runJob, bind. rewrite Hbody.
  reflexivity.
Qed.

End Loops.

(** ** Remuxing *)

Section Remux.

Variable rt : Runtime.
Variable args : Args.

Lemma mp4_is_not_mkv (base : string) : base +:+ ".mp4" <> base +:+ ".mkv".
Proof.
  induction base as [|c base IH]; rewrite ?append_nil, ?append_cons.
  - discriminate.
  - intros [= H]. exact (IH H).
Qed.

(** A download that resolved has left its file in place. *)
Lemma download_leaves_file (url path : string) (w w' : World) :
  download rt args url path w = (Resolved tt, w') -> is_Some (files w' !! path).
Proof.
  unfold download, bind, ask. cbv beta iota.
  destruct (getCookies rt (auth args) (ipAddress args) w) as [[c|e] w1]; [|discriminate].
  destruct (getBinaryDataWithCookies rt url (Some c) path (statusCallback args) w1)
    as [[r|e] w2]; [|discriminate].
  unfold Fs.statSync_size.
  destruct (files w2 !! path) as [size|] eqn:Hfile; [|discriminate].
  destruct (notify_run (statusCallback args)
              (DownloadThroughputStatus
                 (throughputString
                    (Num.div size (DateFns.differenceInSeconds (now rt w2) (now rt w)))))
              w2) as (w3 & -> & _ & Hf & _).
  intros [= <-]. rewrite Hf, Hfile. eauto.
Qed.

(** A failed remux rejects before the source is unlinked. *)
Lemma convert_fails (mp4Filename mkvFilename : string) (w : World) (err : JsError) :
  mp4Filename <> mkvFilename ->
  failure (ffmpeg rt (snd (notify (statusCallback args) ConvertingStatus w))
             mp4Filename mkvFilename) = Some err ->
  exists w',
    convert rt args false mp4Filename mkvFilename w = (Rejected err, w') /\
    files w' !! mp4Filename = files w !! mp4Filename.
Proof.
  intros Hne Hfail. unfold convert. change (negb false) with true. cbv iota.
  unfold bind.
  destruct (notify_run (statusCallback args) ConvertingStatus w)
    as (w1 & E & _ & Hf & _).
  rewrite E in *. simpl in Hfail. unfold convertToMkv. cbv beta iota zeta.
  rewrite Hfail. eexists. split; [reflexivity|].
  destruct (output _); simpl; rewrite ?lookup_insert_ne, Hf; auto.
Qed.

End Remux.

(** C5. With [mp4] false, the source [.mp4] of a chunk is unlinked only
    after its remux has resolved. Whenever the run reaches a chunk, has
    downloaded it, and ffmpeg then fails, the run rejects with ffmpeg's
    error, no later chunk is started, and the [.mp4] file is still there
    with the content the download gave it. *)
Theorem C5_failed_remux_keeps_source (rt : Runtime) (args : Args) (fuel : nat)
    (js1 js2 : list Job) (j : Job) (out1 : list OutputFileType)
    (w0 w1 w2 : World) (err : JsError) :
  mp4 args = Some false ->
  jobs fuel (cameras args) (args_end args) (args_start args)
  = Some (js1 ++ j :: js2) ->
  runJobs rt args js1 [] w0 = (Resolved out1, w1) ->
  fetched rt args j w1 w2 ->
  failure (ffmpeg rt (snd (notify (statusCallback args) ConvertingStatus w2))
             (mp4FilenameOf rt j) (mkvFilenameOf rt j)) = Some err ->
  exists w3,
    fetchVideo rt args fuel w0 = Some (Rejected err, w3) /\
    is_Some (files w3 !! mp4FilenameOf rt j) /\
    files w3 !! mp4FilenameOf rt j = files w2 !! mp4FilenameOf rt j.
Proof.
  intros Hmp4 Hjobs Hbefore (wm & Hskip & Hdown) Hfail.
  destruct (convert_fails rt args _ _ w2 err (mp4_is_not_mkv _) Hfail)
    as (w3 & Hconv & Hkeep).
  exists w3. split; [|split].
  - apply (fetchVideo_rejects rt args fuel js1 js2 j out1 w0 w1 w3 err Hjobs Hbefore).
    unfold cameraBody. rewrite Hmp4. change (default true (Some false)) with false.
    unfold bind. unfold mp4FilenameOf, mkvFilenameOf, urlOf in *.
    rewrite Hskip. cbv beta iota. rewrite Hdown. cbv beta iota.
    rewrite Hconv. reflexivity.
  - unfold mp4FilenameOf, urlOf in *. rewrite Hkeep.
    exact (download_leaves_file rt args _ _ _ _ Hdown).
  - exact Hkeep.
Qed.

Lemma C5_failed_remux_witness :
  let rt := Scenario.runtime Scenario.slow Scenario.ok Scenario.kilobyte
              Scenario.remuxFails in
  exists w3,
    fetchVideo rt (Scenario.job [Scenario.camA] 0 60000 (Some false)) 1
      Scenario.world0 = Some (Rejected Scenario.broken, w3) /\
    files w3 !! "0_60000_A.mp4" = Some 1000%N.
Proof.
  intros rt.
  edestruct (C5_failed_remux_keeps_source rt
               (Scenario.job [Scenario.camA] 0 60000 (Some false)) 1 [] []
               {| job_camera := Scenario.camA; job_start := 0; job_end := 60000 |}
               [] Scenario.world0 Scenario.world0)
    as (w3 & Hrun & _ & Hkeep).
  - reflexivity.
  - vm_compute. reflexivity.
  - reflexivity.
  - eexists. split; [vm_compute; reflexivity | vm_compute; reflexivity].
  - vm_compute. reflexivity.
  - exists w3. split; [exact Hrun|].
    etransitivity; [exact Hkeep|]. vm_compute. reflexivity.
Defined.

(** ** The time windows *)

Section Windows.

Lemma add_hour (date : Z) : DateFns.add date maxMinuteDiff = date + 3600000.
Proof. unfold DateFns.add. simpl. lia. Qed.

Lemma isBefore_true (a b : Z) : a < b -> DateFns.isBefore a b = true.
Proof. intros H. unfold DateFns.isBefore. lia. Qed.

Lemma isBefore_false (a b : Z) : b <= a -> DateFns.isBefore a b = false.
Proof. intros H. unfold DateFns.isBefore. lia. Qed.

(** More than 61 minutes left: a window of one hour. *)
Lemma windowEnd_hour (args_end currentStart : Z) :
  61 * 60000 <= args_end - currentStart ->
  windowEnd args_end currentStart = currentStart + 3600000.
Proof.
  intros H. unfold windowEnd, DateFns.differenceInMinutes,
    DateFns.differenceInMilliseconds.
  rewrite Z.quot_div_nonneg by lia. rewrite add_hour. simpl DateFns.minutes.
  destruct (Z.ltb_spec 60 ((args_end - currentStart) / 60000)) as [_|Hle];
    [reflexivity|].
  pose proof (Z.div_le_mono _ _ 60000 ltac:(lia) H) as Hd.
  change (61 * 60000 / 60000) with 61 in Hd. lia.
Qed.

(** Less than 61 minutes left: the window ends where the range ends. *)
Lemma windowEnd_rest (args_end currentStart : Z) :
  0 <= args_end - currentStart < 61 * 60000 ->
  windowEnd args_end currentStart = args_end.
Proof.
  intros H. unfold windowEnd, DateFns.differenceInMinutes,
    DateFns.differenceInMilliseconds.
  rewrite Z.quot_div_nonneg by lia. simpl DateFns.minutes.
  destruct (Z.ltb_spec 60 ((args_end - currentStart) / 60000)) as [Hlt|_];
    [|reflexivity].
  assert ((args_end - currentStart) / 60000 < 61)
    by (apply Z.div_lt_upper_bound; lia).
  lia.
Qed.

(** The inner loop moves [currentStart] one hour per camera. *)
Lemma cameraJobs_next (currentEnd : Z) (cams : list Camera) :
  forall currentStart,
  fst (cameraJobs currentEnd cams currentStart)
  = currentStart + 3600000 * Z.of_nat (List.length cams).
Proof.
  induction cams as [|camera rest IH]; intros cs; simpl; [lia|].
  specialize (IH (DateFns.add cs maxMinuteDiff)).
  destruct (cameraJobs currentEnd rest (DateFns.add cs maxMinuteDiff)) as [final js].
  simpl in *. rewrite IH, add_hour. lia.
Qed.

(** No window is planned once the start has reached the end. *)
Lemma jobs_empty_range (fuel : nat) (cams : list Camera) (args_end currentStart : Z) :
  args_end <= currentStart -> jobs fuel cams args_end currentStart = Some [].
Proof.
  intros H. destruct fuel; simpl; rewrite isBefore_false by exact H; reflexivity.
Qed.

(** With at least one camera the loop ends: fuel for one iteration per
    started hour is enough. *)
Lemma jobs_terminate (cams : list Camera) (args_end : Z) (fuel : nat) :
  cams <> [] ->
  forall currentStart,
  args_end - currentStart <= 3600000 * Z.of_nat fuel ->
  exists js, jobs fuel cams args_end currentStart = Some js.
Proof.
  intros Hcams. induction fuel as [|fuel IH]; intros cs Hfuel.
  - exists []. apply jobs_empty_range. lia.
  - simpl. destruct (DateFns.isBefore cs args_end); [|eauto].
    pose proof (cameraJobs_next (windowEnd args_end cs) cams cs) as Hnext.
    destruct (cameraJobs (windowEnd args_end cs) cams cs) as [next js1].
    simpl in Hnext.
    assert (Hrest : args_end - next <= 3600000 * Z.of_nat fuel).
    { destruct cams; [contradiction|]. simpl List.length in Hnext. lia. }
    destruct (IH next Hrest) as (rest & ->). eauto.
Qed.

(** Without cameras nothing moves [currentStart]: the loop never ends. *)
Lemma jobs_no_camera_diverges (fuel : nat) (args_end currentStart : Z) :
  currentStart < args_end -> jobs fuel [] args_end currentStart = None.
Proof.
  intros H. induction fuel as [|fuel IH]; simpl; rewrite isBefore_true by exact H;
    [reflexivity|].
  rewrite IH. reflexivity.
Qed.

(** One camera and a range of whole minutes: the windows cut the range. *)
Lemma jobs_single_camera (camera : Camera) (args_end : Z) (fuel : nat) :
  forall currentStart,
  currentStart < args_end ->
  args_end - currentStart <= 3600000 * Z.of_nat fuel ->
  (args_end - currentStart) mod 60000 = 0 ->
  exists js,
    jobs fuel [camera] args_end currentStart = Some js /\
    Chained currentStart (windows js) args_end /\
    Forall (fun j => job_camera j = camera) js.
Proof.
  induction fuel as [|fuel IH]; intros cs Hlt Hfuel Hmin; [lia|].
  simpl. rewrite isBefore_true by exact Hlt. rewrite add_hour.
  destruct (Z_lt_le_dec (args_end - cs) (61 * 60000)) as [Hshort|Hlong].
  - assert (Hle : args_end - cs <= 3600000).
    { pose proof (Z.div_mod (args_end - cs) 60000 ltac:(lia)) as Hdm.
      rewrite Hmin in Hdm.
      assert ((args_end - cs) / 60000 < 61) by (apply Z.div_lt_upper_bound; lia).
      lia. }
    rewrite windowEnd_rest by lia.
    rewrite jobs_empty_range by lia.
    eexists. split; [reflexivity|]. simpl. repeat split; auto; lia.
  - rewrite windowEnd_hour by exact Hlong.
    assert (Hmin' : (args_end - (cs + 3600000)) mod 60000 = 0).
    { replace (args_end - (cs + 3600000)) with (args_end - cs + (-60) * 60000) by lia.
      rewrite Z.mod_add by lia. exact Hmin. }
    destruct (IH (cs + 3600000) ltac:(lia) ltac:(lia) Hmin')
      as (rest & -> & Hch & Hcam).
    eexists. split; [reflexivity|]. simpl. repeat split; auto; lia.
Qed.

End Windows.

(** C1. The window start is moved inside the camera loop, once per camera,
    while the window end is fixed per [while] iteration. Two cameras over
    two hours: camera A is asked for the first hour, camera B for the empty
    window from 01:00 to 01:00, and the loop is over. B never gets the
    first hour, nobody gets the second. *)
Theorem C1_start_advances_per_camera :
  let rt := Scenario.runtime Scenario.slow Scenario.ok Scenario.kilobyte
              Scenario.remuxed in
  let args := Scenario.job [Scenario.camA; Scenario.camB] 0 7200000 None in
  jobs 2 (cameras args) (args_end args) (args_start args)
  = Some [ {| job_camera := Scenario.camA; job_start := 0; job_end := 3600000 |};
           {| job_camera := Scenario.camB; job_start := 3600000;
              job_end := 3600000 |} ] /\
  (downloads ∘ events <$> finalWorld (fetchVideo rt args 2 Scenario.world0))
  = Some [ "https://10.0.0.1:443/proxy/protect/api/video/export?camera=A&start=0&end=3600000";
           "https://10.0.0.1:443/proxy/protect/api/video/export?camera=B&start=3600000&end=3600000" ].
Proof. split; vm_compute; reflexivity. Qed.

(** C2. The length of what is left is compared in whole minutes, rounded
    down. One camera over an hour and a millisecond: 60 minutes are left,
    not more than 60, so the first window runs to the end and is 3600001
    ms long; the start then moves on by an hour, is still before the end,
    and a second window from 01:00:00.000 to 01:00:00.001 is downloaded,
    which the first one already covered. *)
Theorem C2_window_longer_than_an_hour_then_overlap :
  let rt := Scenario.runtime Scenario.slow Scenario.ok Scenario.kilobyte
              Scenario.remuxed in
  let args := Scenario.job [Scenario.camA] 0 3600001 None in
  DateFns.differenceInMinutes 3600001 0 = 60 /\
  (windows <$> jobs 2 (cameras args) (args_end args) (args_start args))
  = Some [ (0, 3600001); (3600000, 3600001) ] /\
  (downloads ∘ events <$> finalWorld (fetchVideo rt args 2 Scenario.world0))
  = Some [ "https://10.0.0.1:443/proxy/protect/api/video/export?camera=A&start=0&end=3600001";
           "https://10.0.0.1:443/proxy/protect/api/video/export?camera=A&start=3600000&end=3600001" ].
Proof. repeat split; vm_compute; reflexivity. Qed.

(** ** Further properties of the loops *)

(** X1. With one camera and a range of whole minutes the windows are right:
    ordered, contiguous, without overlap, none longer than 60 minutes,
    the last one ending at the end of the range; and every one of them is
    a download of that camera. *)
Theorem single_camera_whole_minutes_planned (camera : Camera)
    (args_start args_end : Z) :
  args_start < args_end ->
  (args_end - args_start) mod 60000 = 0 ->
  exists fuel js,
    jobs fuel [camera] args_end args_start = Some js /\
    Chained args_start (windows js) args_end /\
    Forall (fun j => job_camera j = camera) js.
Proof.
  intros Hlt Hmin.
  exists (Z.to_nat (args_end - args_start)).
  apply jobs_single_camera; auto. lia.
Qed.

Lemma single_camera_whole_minutes_witness :
  exists fuel js,
    jobs fuel [Scenario.camA] 9000000 0 = Some js /\
    Chained 0 (windows js) 9000000 /\
    Forall (fun j => job_camera j = Scenario.camA) js.
Proof.
  apply (single_camera_whole_minutes_planned Scenario.camA 0 9000000);
    reflexivity.
Defined.

(** X2. No window is planned, and nothing is done, when the range is
    empty. *)
Theorem empty_range_does_nothing (rt : Runtime) (args : Args) (fuel : nat)
    (w : World) :
  args_end args <= args_start args ->
  jobs fuel (cameras args) (args_end args) (args_start args) = Some [] /\
  fetchVideo rt args fuel w = Some (Resolved [], w).
Proof.
  intros H. split; [apply jobs_empty_range, H|].
  unfold fetchVideo.
  rewrite (whileLoop_runJobs rt args fuel _ [] w [] (jobs_empty_range _ _ _ _ H)).
  reflexivity.
Qed.

Lemma empty_range_witness :
  let rt := Scenario.runtime Scenario.slow Scenario.ok Scenario.kilobyte
              Scenario.remuxed in
  let args := Scenario.job [Scenario.camA] 5000 5000 None in
  jobs 0 (cameras args) (args_end args) (args_start args) = Some [] /\
  fetchVideo rt args 0 Scenario.world0 = Some (Resolved [], Scenario.world0).
Proof.
  intros rt args. apply (empty_range_does_nothing rt args 0 Scenario.world0).
  vm_compute. discriminate.
Defined.

(** X3. With at least one camera [fetchVideo] returns: fuel for one iteration
    per started hour of the range is enough, and the run is then the
    schedule of the loops carried out job by job. *)
Theorem fetchVideo_returns (rt : Runtime) (args : Args) (fuel : nat) (w : World) :
  cameras args <> [] ->
  args_end args - args_start args <= 3600000 * Z.of_nat fuel ->
  exists js,
    jobs fuel (cameras args) (args_end args) (args_start args) = Some js /\
    fetchVideo rt args fuel w = Some (runJobs rt args js [] w).
Proof.
  intros Hcams Hfuel.
  destruct (jobs_terminate (cameras args) (args_end args) fuel Hcams
              (args_start args) Hfuel) as (js & Hjs).
  exists js. split; [exact Hjs|]. apply whileLoop_runJobs, Hjs.
Qed.

Lemma fetchVideo_returns_witness :
  let rt := Scenario.runtime Scenario.slow Scenario.ok Scenario.kilobyte
              Scenario.remuxed in
  let args := Scenario.job [Scenario.camA; Scenario.camB] 0 7200000 None in
  exists js,
    jobs 2 (cameras args) (args_end args) (args_start args) = Some js /\
    fetchVideo rt args 2 Scenario.world0
    = Some (runJobs rt args js [] Scenario.world0).
Proof.
  intros rt args. apply (fetchVideo_returns rt args 2 Scenario.world0).
  - discriminate.
  - vm_compute. discriminate.
Defined.

(** X4. Without cameras and with a range that is not empty [fetchVideo]
    never returns: no amount of fuel is enough. *)
Theorem no_camera_never_returns (rt : Runtime) (args : Args) (fuel : nat)
    (w : World) :
  cameras args = [] ->
  args_start args < args_end args ->
  fetchVideo rt args fuel w = None.
Proof.
  intros Hcams Hlt. unfold fetchVideo.
  generalize (@nil OutputFileType). revert w.
  induction fuel as [|fuel IH]; intros w out; simpl;
    rewrite isBefore_true by exact Hlt; [reflexivity|].
  rewrite Hcams. simpl. apply IH.
Qed.

Lemma no_camera_never_returns_witness :
  let rt := Scenario.runtime Scenario.slow Scenario.ok Scenario.kilobyte
              Scenario.remuxed in
  fetchVideo rt (Scenario.job [] 0 60000 None) 1000 Scenario.world0 = None.
Proof.
  intros rt.
  apply (no_camera_never_returns rt (Scenario.job [] 0 60000 None) 1000
           Scenario.world0); reflexivity.
Defined.

(** ** More on cookie jars *)

Section CookieEdges.

Implicit Types (h : list (gmap string string)) (jar : gmap string string).

(** A cookie [key=value] without attributes and with a single [=]. *)
Lemma safeUpdateCookie_simple key value r h :
  occurs ";" key = false -> occurs "=" key = false ->
  occurs ";" value = false -> occurs "=" value = false ->
  safeUpdateCookie (key +:+ String "=" value) r h
  = <[r := Js.setProperty (Js.trim key) (Js.trim value) (deref h r)]> h.
Proof.
  intros K1 K2 V1 V2. unfold safeUpdateCookie.
  assert (Hsemi : occurs ";" (key +:+ String "=" value) = false).
  { clear K2 V2. induction key as [|c key IH]; rewrite ?append_nil, ?append_cons; simpl.
    - exact V1.
    - simpl in K1. apply orb_false_iff in K1 as [-> K1]. simpl. auto. }
  rewrite (split_absent _ _ Hsemi). simpl.
  rewrite (split_at "=" key _ K2), (split_absent "=" value V2). reflexivity.
Qed.

Lemma setProperty_lookup key value jar :
  key <> "__proto__" -> Js.setProperty key value jar !! key = Some value.
Proof.
  intros H. unfold Js.setProperty.
  destruct (String.eqb_spec key "__proto__"); [contradiction|].
  apply lookup_insert_eq.
Qed.

Lemma setProperty_other key value jar k :
  k <> key -> Js.setProperty key value jar !! k = jar !! k.
Proof.
  intros H. unfold Js.setProperty.
  destruct (String.eqb key "__proto__"); [reflexivity|].
  apply lookup_insert_ne. congruence.
Qed.

End CookieEdges.

(** X5. A [Set-Cookie] value without any [=] is ignored: the heap of jars
    is left exactly as it was, whether or not the value has attributes. *)
Theorem cookie_without_equals_ignored (cookie : string) (r : Ref) (h : Heap) :
  occurs "=" cookie = false -> safeUpdateCookie cookie r h = h.
Proof.
  intros Heq. destruct (occurs ";" cookie) eqn:Hsemi.
  - apply safeUpdateCookie_attributes, Hsemi.
  - unfold safeUpdateCookie. rewrite (split_absent _ _ Hsemi). simpl.
    rewrite (split_absent _ _ Heq). reflexivity.
Qed.

Lemma cookie_without_equals_witness :
  safeUpdateCookie "HttpOnly" 0%nat [{["a" := "1"]}] = [{["a" := "1"]}].
Proof.
  apply (cookie_without_equals_ignored "HttpOnly" 0%nat [{["a" := "1"]}]).
  reflexivity.
Defined.

(** X6. [safeUpdateCookie] changes at most the jar it is given: the heap
    keeps its length and every other jar, and the jar itself is left as it
    was or gets a single assignment. *)
Theorem safeUpdateCookie_touches_one_jar (cookie : string) (r : Ref) (h : Heap) :
  List.length (safeUpdateCookie cookie r h) = List.length h /\
  (forall l, l <> r -> safeUpdateCookie cookie r h !! l = h !! l) /\
  (safeUpdateCookie cookie r h = h \/
   exists key value,
     safeUpdateCookie cookie r h = <[r := Js.setProperty key value (deref h r)]> h).
Proof.
  unfold safeUpdateCookie.
  destruct (negb _); [auto|].
  destruct (Js.split ";" cookie !! 0%nat) as [first|]; [|auto].
  destruct (Js.split "=" first !! 0%nat) as [key|]; [|auto].
  destruct (Js.split "=" first !! 1%nat) as [value|]; [|auto].
  split; [apply length_insert|]. split; [|eauto].
  intros l Hl. apply list_lookup_insert_ne. congruence.
Qed.

Lemma safeUpdateCookie_touches_one_jar_witness :
  safeUpdateCookie "b=2" 1%nat [{["a" := "1"]}; ∅] !! 0%nat = Some {["a" := "1"]}.
Proof.
  destruct (safeUpdateCookie_touches_one_jar "b=2" 1%nat [{["a" := "1"]}; ∅])
    as (_ & Hother & _).
  rewrite (Hother 0%nat); [reflexivity | discriminate].
Defined.

(** X7. Cookies are merged in header order, so of two [Set-Cookie] values
    for the same name the later one wins; it also replaces the value the
    caller's jar had for that name in the merged copy, and every other
    name keeps the caller's value. *)
Theorem later_cookie_wins (key v1 v2 : string) (cookies : Ref) (h : Heap) :
  occurs ";" key = false -> occurs "=" key = false ->
  occurs ";" v1 = false -> occurs "=" v1 = false ->
  occurs ";" v2 = false -> occurs "=" v2 = false ->
  Js.trim key <> "__proto__" ->
  exists jar',
    mergeSetCookie (Some [key +:+ "=" +:+ v1; key +:+ "=" +:+ v2]) cookies h
    = (List.length h, h ++ [jar']) /\
    jar' !! Js.trim key = Some (Js.trim v2) /\
    forall k, k <> Js.trim key -> jar' !! k = deref h cookies !! k.
Proof.
  intros K1 K2 A1 A2 B1 B2 Hk.
  unfold mergeSetCookie, allocObject. simpl fold_left.
  change (key +:+ "=" +:+ v1) with (key +:+ String "=" v1).
  change (key +:+ "=" +:+ v2) with (key +:+ String "=" v2).
  rewrite !safeUpdateCookie_simple by assumption.
  rewrite deref_last, insert_last, deref_last, insert_last.
  eexists. split; [reflexivity|]. split.
  - apply setProperty_lookup, Hk.
  - intros k Hne. rewrite !setProperty_other by exact Hne. reflexivity.
Qed.

Lemma later_cookie_wins_witness :
  exists jar',
    mergeSetCookie (Some ["sid" +:+ "=" +:+ "old"; "sid" +:+ "=" +:+ " new "])
      0%nat [{["sid" := "stale"]}]
    = (1%nat, [{["sid" := "stale"]}] ++ [jar']) /\
    jar' !! "sid" = Some "new" /\
    forall k, k <> "sid" -> jar' !! k = ({["sid" := "stale"]} : gmap string string) !! k.
Proof.
  destruct (later_cookie_wins "sid" "old" " new " 0%nat [{["sid" := "stale"]}]
              eq_refl eq_refl eq_refl eq_refl eq_refl eq_refl
              ltac:(discriminate)) as (jar' & E & Hkey & Hother).
  exists jar'. split; [exact E|]. split; [exact Hkey | exact Hother].
Defined.

(** ** More on requests *)

Section RequestOutcomes.

Variable rt : Runtime.

Lemma attempt_answers (req : Request) (w : World) :
  Axios.attempt rt req w
  = (fst (Axios.attempt rt req w), emit (HttpAttempt req (http rt w req)) w) /\
  answers (http rt w req) (fst (Axios.attempt rt req w)).
Proof.
  unfold Axios.attempt.
  destruct (http rt w req) as [msg|r]; simpl; [auto|].
  destruct (Axios.validateStatus (status r)) eqn:Hv; simpl; auto.
Qed.

Lemma attempts_last_cons (res : HttpResult) (new : list Event) (req : Request)
    (timer : Z) (last_res : HttpResult) :
  last (attempts new) = Some last_res ->
  last (attempts (new ++ [SetTimeout timer; HttpAttempt req res])) = Some last_res.
Proof.
  intros H. rewrite attempts_app. simpl.
  destruct (attempts new) as [|x l]; [discriminate | exact H].
Qed.

(** Whatever the retry options, the outcome of a request is axios's
    reading of the answer to the last attempt. *)
Lemma retrying_outcome (o : AxiosRetryOptions) (req : Request) (remaining : nat) :
  forall (retryCount : nat) (w : World),
  exists new res,
    events (snd (Axios.retrying rt o remaining retryCount req w)) = new ++ events w /\
    last (attempts new) = Some res /\
    answers res (fst (Axios.retrying rt o remaining retryCount req w)).
Proof.
  induction remaining as [|remaining IH]; intros retryCount w;
    rewrite retrying_unfold;
    destruct (attempt_answers req w) as [E Hans]; rewrite E;
    destruct (fst (Axios.attempt rt req w)) as [r|e] eqn:Hfst.
  - exists [HttpAttempt req (http rt w req)], (http rt w req). auto.
  - exists [HttpAttempt req (http rt w req)], (http rt w req). auto.
  - exists [HttpAttempt req (http rt w req)], (http rt w req). auto.
  - destruct (retryCondition o e).
    + destruct (IH (S retryCount)
                  (emit (SetTimeout (retryDelay o (S retryCount) e))
                     (emit (HttpAttempt req (http rt w req)) w)))
        as (new & res & Hev & Hlast & Hres).
      exists (new ++ [SetTimeout (retryDelay o (S retryCount) e);
                      HttpAttempt req (http rt w req)]), res.
      rewrite Hev, <- app_assoc. split; [reflexivity|].
      split; [apply attempts_last_cons, Hlast | exact Hres].
    + exists [HttpAttempt req (http rt w req)], (http rt w req). auto.
Qed.

(** When every answer calls for a retry, the request uses up its retries. *)
Lemma retrying_all_fail (req : Request) :
  (forall w, retryable (http rt w req) = true) ->
  forall (remaining retryCount : nat) (w : World),
  exists e w',
    Axios.retrying rt retryOptions remaining retryCount req w = (Rejected e, w') /\
    List.length (attempts (events w'))
    = (List.length (attempts (events w)) + S remaining)%nat.
Proof.
  intros Hall. induction remaining as [|remaining IH]; intros retryCount w;
    rewrite retrying_unfold;
    destruct (attempt_cases rt req w) as [(r & E & Hr) | (e & E & He)];
    rewrite E; try (rewrite Hall in Hr; discriminate).
  - eexists _, _. split; [reflexivity|].
    change (events (emit (HttpAttempt req (http rt w req)) w))
      with ([HttpAttempt req (http rt w req)] ++ events w).
    rewrite attempts_app, length_app. reflexivity.
  - rewrite He, Hall.
    destruct (IH (S retryCount)
                (emit (SetTimeout (retryDelay retryOptions (S retryCount) e))
                   (emit (HttpAttempt req (http rt w req)) w)))
      as (e' & w' & -> & Hlen).
    eexists _, _. split; [reflexivity|]. rewrite Hlen.
    change (events (emit (SetTimeout (retryDelay retryOptions (S retryCount) e))
                      (emit (HttpAttempt req (http rt w req)) w)))
      with ([SetTimeout (retryDelay retryOptions (S retryCount) e);
             HttpAttempt req (http rt w req)] ++ events w).
    rewrite attempts_app, length_app. simpl. lia.
Qed.

(** The same for a request as [Axios.request] makes it. *)
Lemma request_outcome_parts (req : Request) (w : World) :
  exists new res,
    events (snd (Axios.request rt req w)) = new ++ events w /\
    last (attempts new) = Some res /\
    answers res (fst (Axios.request rt req w)).
Proof.
  unfold Axios.request. destruct (axiosRetry w) as [o|].
  - apply retrying_outcome.
  - destruct (attempt_answers req w) as [E Hans].
    exists [HttpAttempt req (http rt w req)], (http rt w req).
    rewrite E. auto.
Qed.

End RequestOutcomes.

(** A request resolves or rejects as its last attempt did: it resolves
    with a response exactly when the last attempt met that response with a
    2xx status, and otherwise rejects with an error that carries the last
    response, or none after a failure of the network. This holds with and
    without the retry options installed. *)
Theorem request_outcome_is_last_attempt (rt : Runtime) (req : Request) (w : World) :
  exists new res,
    events (snd (Axios.request rt req w)) = new ++ events w /\
    last (attempts new) = Some res /\
    answers res (fst (Axios.request rt req w)).
Proof. apply request_outcome_parts. Qed.

(** X8. An answer with a status below 400 ends the request after a single
    attempt, also under the retry options: it resolves for a 2xx status
    and rejects for any other (a 304, for one, is an error that is not
    tried again). *)
Theorem status_below_400_is_final (rt : Runtime) (req : Request) (w : World)
    (r : AxiosResponse) :
  axiosRetry w = Some retryOptions ->
  http rt w req = HttpResponse r ->
  status r < 400 ->
  exists o,
    Axios.request rt req w = (o, emit (HttpAttempt req (HttpResponse r)) w) /\
    answers (HttpResponse r) o.
Proof.
  intros Hw Hres Hlt. unfold Axios.request. rewrite Hw. simpl retries.
  rewrite retrying_unfold.
  destruct (attempt_answers rt req w) as [E Hans]. rewrite E, Hres in *.
  destruct (fst (Axios.attempt rt req w)) as [r'|e].
  - exists (Resolved r'). split; [reflexivity | exact Hans].
  - exists (Rejected e). split; [|exact Hans].
    destruct Hans as [He Hv].
    assert (Hc : retryCondition retryOptions e = false).
    { simpl. rewrite He. lia. }
    rewrite Hc. reflexivity.
Qed.

Lemma status_below_400_witness :
  let notModified := fun (_ : World) (_ : Request) =>
    HttpResponse {| status := 304; set_cookie := None; data := "" |} in
  let rt := Scenario.runtime Scenario.slow notModified Scenario.kilobyte
              Scenario.remuxed in
  let req := {| method := GET; url := "https://10.0.0.1:443/x"; cookie := "";
                body := None |} in
  let w := setAxiosRetry retryOptions Scenario.world0 in
  exists o,
    Axios.request rt req w
    = (o, emit (HttpAttempt req (HttpResponse
                  {| status := 304; set_cookie := None; data := "" |})) w) /\
    answers (HttpResponse {| status := 304; set_cookie := None; data := "" |}) o.
Proof.
  intros notModified rt req w.
  apply (status_below_400_is_final rt req w
           {| status := 304; set_cookie := None; data := "" |});
    reflexivity.
Defined.

(** X9. When every answer is a failure of the network or a status of 400
    or more, a request under the retry options is put on the wire exactly
    4 times and then rejects. *)
Theorem persistent_failure_takes_four_attempts (rt : Runtime) (req : Request)
    (w : World) :
  (forall w', retryable (http rt w' req) = true) ->
  axiosRetry w = Some retryOptions ->
  exists e w',
    Axios.request rt req w = (Rejected e, w') /\
    List.length (attempts (events w'))
    = (List.length (attempts (events w)) + 4)%nat.
Proof.
  intros Hall Hw. unfold Axios.request. rewrite Hw.
  apply (retrying_all_fail rt req Hall 3 0%nat w).
Qed.

Lemma persistent_failure_witness :
  let rt := Scenario.runtime Scenario.slow Scenario.unavailable
              Scenario.kilobyte Scenario.remuxed in
  let req := {| method := GET; url := "https://10.0.0.1:443/x"; cookie := "";
                body := None |} in
  let w := setAxiosRetry retryOptions Scenario.world0 in
  exists e w',
    Axios.request rt req w = (Rejected e, w') /\
    List.length (attempts (events w'))
    = (List.length (attempts (events w)) + 4)%nat.
Proof.
  intros rt req w.
  apply (persistent_failure_takes_four_attempts rt req w); reflexivity.
Defined.

(** ** The two request functions as a whole *)

Section WholeRequests.

Variable rt : Runtime.

Lemma statuses_app (a b : list Event) : statuses (a ++ b) = statuses b ++ statuses a.
Proof. unfold statuses. rewrite rev_app_distr, omap_app. reflexivity. Qed.

Lemma statuses_notified (cb : bool) (s : Status) :
  statuses (notified cb s) = if cb then [s] else [].
Proof. destruct cb; reflexivity. Qed.

Lemma statuses_progressEvents (cb : bool) (ps : list (option Q)) :
  statuses (progressEvents rt cb ps)
  = if cb then (fun p => DownloadingStatus (Some (percent rt p))) <$> ps else [].
Proof.
  unfold progressEvents, statuses. rewrite rev_involutive.
  induction ps as [|p ps IH]; [destruct cb; reflexivity|].
  rewrite bind_cons, omap_app, IH. destruct cb; reflexivity.
Qed.

(** Attempts and timers are no statuses. *)
Lemma statuses_wire (req : Request) (new : list Event) :
  Forall (fun e => (exists res, e = HttpAttempt req res) \/ e = SetTimeout 0) new ->
  statuses new = [].
Proof.
  unfold statuses. intros H. apply Forall_rev in H.
  induction H as [|e l [[res ->] | ->] _ IH]; simpl; auto.
Qed.

(** A request under the program's retry options, in full. *)
Lemma request_full (req : Request) (w : World) :
  axiosRetry w = Some retryOptions ->
  exists new res,
    let w' := snd (Axios.request rt req w) in
    events w' = new ++ events w /\
    files w' = files w /\ jars w' = jars w /\ axiosRetry w' = axiosRetry w /\
    Forall (fun e => (exists res, e = HttpAttempt req res) \/ e = SetTimeout 0) new /\
    last (attempts new) = Some res /\
    answers res (fst (Axios.request rt req w)).
Proof.
  intros Hw.
  destruct (request_trace rt req w Hw) as (new & Hev & Hf & Hj & Ha & _ & _ & Hn).
  destruct (request_outcome_parts rt req w) as (new' & res & Hev' & Hlast & Hans).
  cbv zeta in *. rewrite Hev in Hev'. apply app_inv_tail in Hev'. subst new'.
  exists new, res. auto 10.
Qed.

End WholeRequests.

Section Downloads.

Variable rt : Runtime.

(** Whatever the retry options, a request adds only attempts and timers to
    the events and changes nothing else. *)
Lemma retrying_frame (o : AxiosRetryOptions) (req : Request) (remaining : nat) :
  forall (retryCount : nat) (w : World),
  exists new,
    let w' := snd (Axios.retrying rt o remaining retryCount req w) in
    events w' = new ++ events w /\ statuses new = [] /\
    files w' = files w /\ jars w' = jars w /\ axiosRetry w' = axiosRetry w.
Proof.
  induction remaining as [|remaining IH]; intros retryCount w;
    rewrite retrying_unfold;
    destruct (attempt_answers rt req w) as [E _]; rewrite E;
    destruct (fst (Axios.attempt rt req w)) as [r|e];
    try (exists [HttpAttempt req (http rt w req)]; cbv zeta; simpl; auto 10; fail).
  destruct (retryCondition o e);
    [|exists [HttpAttempt req (http rt w req)]; cbv zeta; simpl; auto 10].
  destruct (IH (S retryCount)
              (emit (SetTimeout (retryDelay o (S retryCount) e))
                 (emit (HttpAttempt req (http rt w req)) w)))
    as (new & Hev & Hst & Hf & Hj & Ha).
  exists (new ++ [SetTimeout (retryDelay o (S retryCount) e);
                  HttpAttempt req (http rt w req)]).
  cbv zeta in *. rewrite Hev, Hf, Hj, Ha, <- app_assoc, statuses_app, Hst.
  auto 10.
Qed.

Lemma request_frame (req : Request) (w : World) :
  exists new,
    let w' := snd (Axios.request rt req w) in
    events w' = new ++ events w /\ statuses new = [] /\
    files w' = files w /\ jars w' = jars w /\ axiosRetry w' = axiosRetry w.
Proof.
  unfold Axios.request. destruct (axiosRetry w) as [o|] eqn:Hw.
  - rewrite <- Hw. apply retrying_frame.
  - destruct (attempt_answers rt req w) as [E _]. rewrite E.
    exists [HttpAttempt req (http rt w req)]. cbv zeta. simpl. auto 10.
Qed.

(** Lines 136-171: the file is opened empty, [Waiting] is reported, the
    request is made; nothing else is reported. *)
Lemma startDownload_run (url : string) (cookies : option Ref)
    (filename : string) (cb : bool) (w : World) :
  let w1 := snd (startDownload rt url cookies filename cb w) in
  files w1 = <[filename := 0%N]> (files w) /\
  statuses (events w1) = statuses (events w) ++ (if cb then [WaitingStatus] else []).
Proof.
  unfold startDownload, bind.
  destruct (orEmptyJar_run cookies w) as (r & h & ->).
  unfold ask, Fs.createWriteStream, update. cbv beta iota.
  set (w0 := setFiles _ (setJars h w)).
  destruct (notify_run cb WaitingStatus w0) as (wa & -> & Hev1 & Hf1 & _ & _).
  set (req := {| method := GET; url := url;
                 cookie := cookieHeader (deref (jars (setJars h w)) r);
                 body := None |}).
  destruct (request_frame req wa) as (new & Hev & Hst & Hf & _ & _).
  cbv zeta in *.
  assert (Hfiles : files (snd (Axios.request rt req wa)) = <[filename := 0%N]> (files w))
    by (rewrite Hf, Hf1; reflexivity).
  assert (Hstat : statuses (events (snd (Axios.request rt req wa)))
                  = statuses (events w) ++ (if cb then [WaitingStatus] else [])).
  { rewrite Hev, Hev1, !statuses_app, Hst, statuses_notified, app_nil_r.
    reflexivity. }
  destruct (Axios.request rt req wa) as [[resp|e] w2]; simpl in *.
  - destruct (mergeResponseCookies_run (set_cookie resp) r w2) as (r' & h' & ->).
    simpl. auto.
  - auto.
Qed.

(** [postWithCookies] on a jar that is passed in, as one step. *)
Lemma postWithCookies_unfold (url : string) (payload : list (string * string))
    (c : Ref) (w : World) :
  postWithCookies rt url payload (Some c) w
  = match Axios.request rt
            {| method := POST; url := url;
               cookie := cookieHeader (deref (jars w) c);
               body := Some (URLSearchParams rt payload) |}
            (setAxiosRetry retryOptions w) with
    | (Resolved resp, w2) =>
        (Resolved (data resp,
                   fst (mergeSetCookie (set_cookie resp) c (jars w2))),
         setJars (snd (mergeSetCookie (set_cookie resp) c (jars w2))) w2)
    | (Rejected e, w2) => (Rejected e, w2)
    end.
Proof.
  unfold postWithCookies, bind. simpl.
  destruct (Axios.request rt _ (setAxiosRetry retryOptions w)) as [[resp|e] w2];
    [|reflexivity].
  unfold mergeResponseCookies.
  destruct (mergeSetCookie (set_cookie resp) c (jars w2)) as [r h]. reflexivity.
Qed.

(** [postWithCookies] on a jar that is passed in: its requests, its
    result and what it leaves behind. *)
Lemma postWithCookies_parts (url : string)
    (payload : list (string * string)) (c : Ref) (w : World) :
  let req := {| method := POST; url := url;
                cookie := cookieHeader (deref (jars w) c);
                body := Some (URLSearchParams rt payload) |} in
  let run := postWithCookies rt url payload (Some c) w in
  exists new res,
    events (snd run) = new ++ events w /\
    Forall (fun e => (exists res, e = HttpAttempt req res) \/ e = SetTimeout 0) new /\
    last (attempts new) = Some res /\
    files (snd run) = files w /\
    match fst run with
    | Resolved (responseText, updatedCookies) =>
        exists resp,
          res = HttpResponse resp /\ responseText = data resp /\
          (updatedCookies, jars (snd run))
          = mergeSetCookie (set_cookie resp) c (jars w)
    | Rejected e => answers res (Rejected e) /\ jars (snd run) = jars w
    end.
Proof.
  intros req run. subst run. rewrite postWithCookies_unfold. fold req.
  set (w1 := setAxiosRetry retryOptions w).
  destruct (request_full rt req w1 eq_refl)
    as (new & res & Hev & Hf & Hj & _ & Hn & Hlast & Hans).
  exists new, res. cbv zeta in *.
  destruct (Axios.request rt req w1) as [[resp|e] w2]; simpl in *.
  - rewrite Hj. repeat (split; [assumption|]).
    destruct res as [msg|resp']; [contradiction|].
    destruct Hans as [-> _]. exists resp'.
    destruct (mergeSetCookie (set_cookie resp') c (jars w)); auto.
  - auto 10.
Qed.

End Downloads.

Lemma cookieHeader_headerOf (jar : gmap string string) :
  headerOf jar (cookieHeader jar).
Proof. exists (map_to_list jar). split; reflexivity. Qed.

(** X10. [postWithCookies] in full, for a jar that is passed in. Every
    attempt, retries included, is the same POST to [url], with the
    form-encoded payload as body and a [Cookie] header made of the
    [name=value] pairs of the caller's jar, each once, joined by ["; "]
    (the order of the pairs is not stated). The files are not touched.
    When it resolves, the last attempt met a response, the text returned is
    that response's body, and the jar returned is the merge of its
    [Set-Cookie] headers into a copy of the caller's jar. When it rejects,
    the error is that of the last attempt and the heap of jars is as
    before. *)
Theorem postWithCookies_in_full (rt : Runtime) (url : string)
    (payload : Payload) (c : Ref) (w : World) :
  let run := postWithCookies rt url payload (Some c) w in
  exists header new res,
    headerOf (deref (jars w) c) header /\
    let req := {| method := POST; url := url; cookie := header;
                  body := Some (URLSearchParams rt payload) |} in
    events (snd run) = new ++ events w /\
    Forall (fun e => (exists res, e = HttpAttempt req res) \/ e = SetTimeout 0) new /\
    last (attempts new) = Some res /\
    files (snd run) = files w /\
    match fst run with
    | Resolved (responseText, updatedCookies) =>
        exists resp,
          res = HttpResponse resp /\ responseText = data resp /\
          (updatedCookies, jars (snd run))
          = mergeSetCookie (set_cookie resp) c (jars w)
    | Rejected e => answers res (Rejected e) /\ jars (snd run) = jars w
    end.
Proof.
  intros run.
  destruct (postWithCookies_parts rt url payload c w) as (new & res & H).
  exists (cookieHeader (deref (jars w) c)), new, res.
  split; [apply cookieHeader_headerOf | exact H].
Qed.

(** What a download that resolves has reported and written. *)
Lemma getBinaryDataWithCookies_exact (rt : Runtime) (url : string)
    (cookies : option Ref) (filename : string) (cb : bool) (w w' : World)
    (r : Ref) :
  getBinaryDataWithCookies rt url cookies filename cb w = (Resolved r, w') ->
  let s := bodyOf rt url cookies filename cb w in
  finished s = Finish /\
  statuses (events w')
  = statuses (events w) ++ (if cb then downloadReports rt s else []) /\
  files w' = <[filename := written s]> (files w).
Proof.
  unfold bodyOf, getBinaryDataWithCookies, bind.
  pose proof (startDownload_run rt url cookies filename cb w) as [Hf1 Hst1].
  cbv zeta in *.
  destruct (startDownload rt url cookies filename cb w) as [[uc|e] w1];
    [|discriminate].
  simpl in Hf1, Hst1. simpl snd.
  destruct (pipe_run rt filename cb uc w1) as (w2 & Hf2 & _ & _ & Hend).
  cbv zeta in Hend.
  destruct (finished (stream rt w1 filename)); destruct Hend as [-> Hev2];
    [|discriminate|discriminate].
  intros [= <- <-]. split; [reflexivity|]. split.
  - rewrite Hev2, !statuses_app, Hst1, statuses_notified, statuses_progressEvents.
    unfold downloadReports.
    destruct cb; simpl; rewrite <- ?app_assoc; reflexivity.
  - rewrite Hf2, Hf1. apply insert_insert_eq.
Qed.

Lemma getBinaryDataWithCookies_resolved (rt : Runtime) (url : string)
    (cookies : option Ref) (filename : string) (cb : bool) (w w' : World)
    (r : Ref) :
  getBinaryDataWithCookies rt url cookies filename cb w = (Resolved r, w') ->
  exists ps size,
    statuses (events w')
    = statuses (events w) ++
      (if cb
       then WaitingStatus
            :: ((fun p => DownloadingStatus (Some (percent rt p))) <$> ps)
            ++ [DownloadingStatus (Some "100%")]
       else []) /\
    files w' = <[filename := size]> (files w).
Proof.
  intros H.
  destruct (getBinaryDataWithCookies_exact _ _ _ _ _ _ _ _ H) as (_ & Hst & Hf).
  eexists _, _. split; [exact Hst | exact Hf].
Qed.

(** X11. A download that resolves, with a callback that returns: the
    body was piped to its end, and the callback has received, in this
    order and nothing else, [Waiting], one [Downloading] with the formatted
    progress for each progress event of that body, and [Downloading] with
    ["100%"]; without a callback nothing is reported. The destination then
    holds the bytes that body wrote, whatever it held before. *)
Theorem resolved_download_reports_in_order (rt : Runtime) (url : string)
    (cookies : option Ref) (filename : string) (cb : bool) (w w' : World)
    (r : Ref) :
  getBinaryDataWithCookies rt url cookies filename cb w = (Resolved r, w') ->
  let s := bodyOf rt url cookies filename cb w in
  finished s = Finish /\
  statuses (events w')
  = statuses (events w) ++
    (if cb
     then WaitingStatus
          :: ((fun p => DownloadingStatus (Some (percent rt p))) <$> ticks s)
          ++ [DownloadingStatus (Some "100%")]
     else []) /\
  files w' = <[filename := written s]> (files w).
Proof. apply getBinaryDataWithCookies_exact. Qed.

Lemma resolved_download_witness :
  let rt := Scenario.runtime Scenario.slow Scenario.ok Scenario.halfway
              Scenario.remuxed in
  let run := getBinaryDataWithCookies rt "https://10.0.0.1:443/x" None "clip.mp4"
               true Scenario.world0 in
  statuses (events (snd run))
  = [WaitingStatus; DownloadingStatus (Some "50%");
     DownloadingStatus (Some "Unknown"); DownloadingStatus (Some "100%")] /\
  files (snd run) = <["clip.mp4" := 1000%N]> (files Scenario.world0).
Proof.
  intros rt run. subst run.
  destruct (getBinaryDataWithCookies rt "https://10.0.0.1:443/x" None "clip.mp4"
              true Scenario.world0) as [o w'] eqn:E.
  assert (Ho : exists r, o = Resolved r).
  { revert E. vm_compute. intros [= <- _]. eauto. }
  destruct Ho as (r & ->).
  destruct (resolved_download_reports_in_order rt _ _ _ _ _ _ _ E)
    as (_ & Hst & Hf).
  split; [exact Hst | exact Hf].
Defined.



(** ** More on the chunks *)

(** X13. With [mp4] false and a remux that ends well, the chunk's [.mp4]
    is gone afterwards and the [.mkv] holds what ffmpeg wrote (or what it
    held before, if ffmpeg wrote nothing); the callback has received
    [Converting] before ffmpeg ran. *)
Theorem successful_remux_replaces_source (rt : Runtime) (args : Args)
    (mp4Filename mkvFilename : string) (w : World) (size : N) :
  files w !! mp4Filename = Some size ->
  mp4Filename <> mkvFilename ->
  let r := ffmpeg rt (snd (notify (statusCallback args) ConvertingStatus w))
             mp4Filename mkvFilename in
  failure r = None ->
  exists w',
    convert rt args false mp4Filename mkvFilename w = (Resolved tt, w') /\
    files w' !! mp4Filename = None /\
    files w' !! mkvFilename
    = match output r with Some n => Some n | None => files w !! mkvFilename end /\
    events w' = FfmpegRun mp4Filename mkvFilename
                  :: notified (statusCallback args) ConvertingStatus ++ events w.
Proof.
  intros Hfile Hne r Hok. subst r.
  unfold convert. change (negb false) with true. cbv iota. unfold bind.
  destruct (notify_run (statusCallback args) ConvertingStatus w)
    as (w1 & E & Hev & Hf & _).
  rewrite E in *. cbn [snd] in *. unfold convertToMkv. cbv beta iota zeta.
  rewrite Hok. unfold Fs.unlinkSync.
  destruct (output (ffmpeg rt w1 mp4Filename mkvFilename)) as [n|]; simpl.
  - rewrite lookup_insert_ne by congruence. rewrite Hf, Hfile.
    eexists. split; [reflexivity|]. simpl.
    rewrite lookup_delete_eq, lookup_delete_ne, lookup_insert_eq, Hev by congruence.
    auto.
  - rewrite Hf, Hfile. eexists. split; [reflexivity|]. simpl.
    rewrite lookup_delete_eq, lookup_delete_ne, Hev by congruence. auto.
Qed.

Lemma successful_remux_witness :
  let rt := Scenario.runtime Scenario.slow Scenario.ok Scenario.kilobyte
              Scenario.remuxed in
  let args := Scenario.job [Scenario.camA] 0 60000 (Some false) in
  let w := Scenario.withFile "clip.mp4" 1000 Scenario.world0 in
  exists w',
    convert rt args false "clip.mp4" "clip.mkv" w = (Resolved tt, w') /\
    files w' !! "clip.mp4" = None /\
    files w' !! "clip.mkv" = Some 1000%N.
Proof.
  intros rt args w.
  destruct (successful_remux_replaces_source rt args "clip.mp4" "clip.mkv" w 1000)
    as (w' & Hrun & Hmp4 & Hmkv & _).
  - vm_compute. reflexivity.
  - discriminate.
  - reflexivity.
  - exists w'. split; [exact Hrun|]. split; [exact Hmp4 | exact Hmkv].
Defined.

(** X14. A download that starts and ends within the same second reports
    ["Infinity MB"], or ["NaN B"] when the file is empty, whatever the
    size of the file. *)
Theorem subsecond_throughput_is_not_a_number (size : N)
    (downloadStart downloadEnd : Z) :
  downloadStart <= downloadEnd < downloadStart + 1000 ->
  throughputString
    (Num.div size (DateFns.differenceInSeconds downloadEnd downloadStart))
  = if (size =? 0)%N then "NaN B" else "Infinity MB".
Proof.
  intros H. rewrite (differenceInSeconds_zero _ _ H).
  apply throughputString_zero_seconds.
Qed.

Lemma subsecond_throughput_witness :
  throughputString (Num.div 52428800 (DateFns.differenceInSeconds 1700000000999 1700000000000))
  = "Infinity MB".
Proof.
  apply (subsecond_throughput_is_not_a_number 52428800 1700000000000 1700000000999).
  lia.
Defined.

Section WindowBounds.

Lemma windowEnd_bounds (args_end currentStart : Z) :
  currentStart < args_end ->
  currentStart < windowEnd args_end currentStart <= args_end /\
  windowEnd args_end currentStart - currentStart < 61 * 60000.
Proof.
  intros H.
  destruct (Z_lt_le_dec (args_end - currentStart) (61 * 60000)) as [Hshort|Hlong].
  - rewrite windowEnd_rest by lia. lia.
  - rewrite windowEnd_hour by exact Hlong. lia.
Qed.

Lemma cameraJobs_bounds (currentEnd : Z) (cams : list Camera) :
  forall currentStart,
  currentStart <= fst (cameraJobs currentEnd cams currentStart) /\
  Forall (fun j => currentStart <= job_start j /\ job_end j = currentEnd)
    (snd (cameraJobs currentEnd cams currentStart)).
Proof.
  induction cams as [|camera rest IH]; intros cs; simpl;
    [split; [lia | constructor]|].
  specialize (IH (DateFns.add cs maxMinuteDiff)). rewrite add_hour in *.
  destruct (cameraJobs currentEnd rest (cs + 3600000)) as [final js].
  simpl in *. destruct IH as [Hnext Hjs]. split; [lia|].
  constructor; [simpl; lia|].
  eapply Forall_impl; [exact Hjs|]. simpl. intros j [? ?]. lia.
Qed.

Lemma jobs_bounds (cams : list Camera) (args_end : Z) (fuel : nat) :
  forall currentStart js,
  jobs fuel cams args_end currentStart = Some js ->
  Forall (fun j => currentStart <= job_start j /\ job_end j <= args_end /\
                   job_end j - job_start j < 61 * 60000) js.
Proof.
  induction fuel as [|fuel IH]; intros cs js; simpl;
    destruct (DateFns.isBefore cs args_end) eqn:Hb; try discriminate;
    try (intros [= <-]; constructor).
  apply Z.ltb_lt in Hb.
  pose proof (cameraJobs_bounds (windowEnd args_end cs) cams cs) as [Hnext Hjs].
  destruct (cameraJobs (windowEnd args_end cs) cams cs) as [next js1].
  simpl in Hnext, Hjs.
  destruct (jobs fuel cams args_end next) as [rest|] eqn:Erest; [|discriminate].
  intros [= <-]. destruct (windowEnd_bounds args_end cs Hb) as [Hw Hd].
  apply Forall_app. split.
  - eapply Forall_impl; [exact Hjs|]. simpl. intros j [? ?]. lia.
  - eapply Forall_impl; [exact (IH next rest Erest)|]. simpl. intros j (? & ? & ?). lia.
Qed.

End WindowBounds.

(** X15. Whatever the number of cameras and the range, no planned
    download starts before the requested start or ends after the requested
    end, and no window is 61 minutes long or longer. *)
Theorem windows_stay_in_range (cams : list Camera) (args_start args_end : Z)
    (fuel : nat) (js : list Job) :
  jobs fuel cams args_end args_start = Some js ->
  Forall (fun j => args_start <= job_start j /\ job_end j <= args_end /\
                   job_end j - job_start j < 61 * 60000) js.
Proof. apply jobs_bounds. Qed.

Lemma windows_stay_in_range_witness :
  Forall (fun j => 0 <= job_start j /\ job_end j <= 9000001 /\
                   job_end j - job_start j < 61 * 60000)
    [ {| job_camera := Scenario.camA; job_start := 0; job_end := 3600000 |};
      {| job_camera := Scenario.camB; job_start := 3600000; job_end := 3600000 |};
      {| job_camera := Scenario.camA; job_start := 7200000; job_end := 9000001 |};
      {| job_camera := Scenario.camB; job_start := 10800000; job_end := 9000001 |} ].
Proof.
  apply (windows_stay_in_range [Scenario.camA; Scenario.camB] 0 9000001 2).
  vm_compute. reflexivity.
Defined.

(** ** The run as a whole *)

Section WholeRun.

Variable rt : Runtime.
Variable args : Args.

(** A job adds its record, or nothing when it is skipped. *)
Lemma cameraBody_record (j : Job) (out : list OutputFileType) (w w' : World)
    (st : Z * list OutputFileType) :
  cameraBody rt args (job_end j) (job_camera j) (job_start j) out w
  = (Resolved st, w') ->
  snd st = out \/ snd st = out ++ [recordOf rt args j].
Proof.
  unfold cameraBody, bind, ret.
  destruct (skipExisting _ w) as [[[|]|e] w1];
    [intros [= <- _]; auto| |discriminate].
  destruct (download _ _ _ _ w1) as [[[]|e] w2]; [|discriminate].
  destruct (convert _ _ _ _ _ w2) as [[[]|e] w3]; [|discriminate].
  intros [= <- _]. right. reflexivity.
Qed.

Lemma runJobs_records (js : list Job) :
  forall (out out' : list OutputFileType) (w w' : World),
  runJobs rt args js out w = (Resolved out', w') ->
  exists news, out' = out ++ news /\ sublist news (recordOf rt args <$> js).
Proof.
  induction js as [|j js IH]; intros out out' w w'; simpl.
  - intros [= <- _]. exists []. rewrite app_nil_r. split; constructor.
  - unfold bind, runJob, bind.
    destruct (cameraBody rt args (job_end j) (job_camera j) (job_start j) out w)
      as [[st|e] w1] eqn:Ebody; [|discriminate].
    unfold ret. intros Hrest.
    destruct (IH _ _ _ _ Hrest) as (news & -> & Hsub).
    destruct (cameraBody_record _ _ _ _ _ Ebody) as [-> | ->].
    + exists news. split; [reflexivity|]. apply sublist_cons, Hsub.
    + exists (recordOf rt args j :: news). rewrite <- app_assoc.
      split; [reflexivity|]. apply sublist_skip, Hsub.
Qed.

(** Jobs whose destinations are all there and not empty are all skipped:
    one line is logged per job and nothing else happens. *)
Lemma runJobs_all_skipped (js : list Job) :
  forall (out : list OutputFileType) (w : World),
  (forall j, j ∈ js ->
     exists size, files w !! mp4FilenameOf rt j = Some size /\ size <> 0%N) ->
  exists logs w',
    runJobs rt args js out w = (Resolved out, w') /\
    events w' = (ConsoleLog <$> logs) ++ events w /\
    List.length logs = List.length js /\
    files w' = files w /\ jars w' = jars w /\ axiosRetry w' = axiosRetry w.
Proof.
  induction js as [|j js IH]; intros out w Hall; simpl.
  - exists [], w. auto 10.
  - destruct (Hall j ltac:(left)) as (size & Hfile & Hsize).
    unfold bind, runJob, bind, cameraBody, bind.
    fold (mp4FilenameOf rt j).
    rewrite (skipExisting_nonempty _ _ _ Hfile Hsize). unfold ret.
    cbv beta iota. cbn [fst snd].
    set (msg := mp4FilenameOf rt j +:+ _).
    destruct (IH out (emit (ConsoleLog msg) w)) as (logs & w' & E & Hev & Hlen & Hf & Hj & Ha).
    { intros j' Hj'. apply Hall. right. exact Hj'. }
    exists (logs ++ [msg]), w'. split; [exact E|].
    rewrite Hev, Hf, Hj, Ha, fmap_app, <- app_assoc, length_app. simpl.
    repeat split; auto. lia.
Qed.

(** The login leaves the files alone. *)
Lemma getCookies_files (authPayload : AuthPayload) (ipAddress : string) (w : World) :
  files (snd (getCookies rt authPayload ipAddress w)) = files w.
Proof.
  unfold getCookies, bind, newObject, allocObject. cbv beta iota zeta.
  set (w1 := setJars _ w).
  destruct (postWithCookies_trace rt
              ("https://" +:+ ipAddress +:+ ":443/api/auth/login")
              authPayload
              (Some (List.length (jars w))) w1)
    as (new & _ & Hf & _).
  cbv zeta in Hf.
  destruct (postWithCookies _ _ _ _ w1) as [[r|e] w2]; exact Hf.
Qed.

(** A download writes its destination and no other file. *)
Lemma getBinaryDataWithCookies_files (url : string) (cookies : option Ref)
    (path : string) (cb : bool) (w : World) :
  exists size,
    files (snd (getBinaryDataWithCookies rt url cookies path cb w))
    = <[path := size]> (files w).
Proof.
  unfold getBinaryDataWithCookies, bind.
  pose proof (startDownload_run rt url cookies path cb w) as [Hf1 _].
  cbv zeta in Hf1.
  destruct (startDownload rt url cookies path cb w) as [[uc|e] w1]; simpl in Hf1.
  - destruct (pipe_run rt path cb uc w1) as (w2 & Hf2 & _ & _ & Hend).
    cbv zeta in Hend.
    exists (written (stream rt w1 path)).
    assert (Hw2 : snd (pipe rt path cb uc w1) = w2)
      by (destruct (finished (stream rt w1 path)); destruct Hend as [-> _];
          reflexivity).
    rewrite Hw2, Hf2, Hf1. apply insert_insert_eq.
  - exists 0%N. exact Hf1.
Qed.

Lemma download_files (url path : string) (w : World) (other : string) :
  other <> path ->
  files (snd (download rt args url path w)) !! other = files w !! other.
Proof.
  intros Hne. unfold download, bind, ask. cbv beta iota.
  pose proof (getCookies_files (auth args) (ipAddress args) w) as Hf0.
  destruct (getCookies rt (auth args) (ipAddress args) w) as [[c|e] w1];
    simpl in Hf0; [|simpl; rewrite Hf0; reflexivity].
  destruct (getBinaryDataWithCookies_files url (Some c) path (statusCallback args) w1)
    as (size & Hf1).
  destruct (getBinaryDataWithCookies rt url (Some c) path (statusCallback args) w1)
    as [[r|e] w2]; simpl in Hf1;
    [|simpl; rewrite Hf1, lookup_insert_ne, Hf0 by congruence; reflexivity].
  unfold Fs.statSync_size.
  destruct (files w2 !! path) as [n|];
    [|simpl; rewrite Hf1, lookup_insert_ne, Hf0 by congruence; reflexivity].
  destruct (notify_run (statusCallback args)
              (DownloadThroughputStatus
                 (throughputString
                    (Num.div n (DateFns.differenceInSeconds (now rt w2) (now rt w)))))
              w2) as (w3 & -> & _ & Hf3 & _).
  simpl. rewrite Hf3, Hf1, lookup_insert_ne, Hf0 by congruence. reflexivity.
Qed.

Lemma skipExisting_files (path : string) (w : World) (other : string) :
  other <> path ->
  files (snd (skipExisting path w)) !! other = files w !! other.
Proof.
  intros Hne. destruct (files w !! path) as [size|] eqn:Hfile.
  - destruct (N.eq_dec size 0%N) as [->|Hsize].
    + rewrite (skipExisting_empty _ _ Hfile). simpl.
      apply lookup_delete_ne. congruence.
    + rewrite (skipExisting_nonempty _ _ _ Hfile Hsize). reflexivity.
  - rewrite (skipExisting_absent _ _ Hfile). reflexivity.
Qed.

Lemma convert_files (mp4Flag : bool) (mp4Filename mkvFilename : string)
    (w : World) (other : string) :
  other <> mp4Filename -> other <> mkvFilename ->
  files (snd (convert rt args mp4Flag mp4Filename mkvFilename w)) !! other
  = files w !! other.
Proof.
  intros H1 H2. unfold convert. destruct mp4Flag; [reflexivity|].
  change (negb false) with true. cbv iota. unfold bind.
  destruct (notify_run (statusCallback args) ConvertingStatus w)
    as (w1 & -> & _ & Hf & _).
  unfold convertToMkv. cbv beta iota zeta.
  set (r := ffmpeg rt w1 mp4Filename mkvFilename).
  assert (Hout : forall w2,
            w2 = match output r with
                 | Some n =>
                     setFiles (<[mkvFilename := n]>
                                 (files (emit (FfmpegRun mp4Filename mkvFilename) w1)))
                       (emit (FfmpegRun mp4Filename mkvFilename) w1)
                 | None => emit (FfmpegRun mp4Filename mkvFilename) w1
                 end ->
            files w2 !! other = files w !! other).
  { intros w2 ->. destruct (output r); simpl;
      rewrite ?lookup_insert_ne, Hf by congruence; reflexivity. }
  destruct (failure r) as [err|].
  - simpl. apply (Hout _ eq_refl).
  - unfold Fs.unlinkSync.
    match goal with
    | |- context [files ?w2 !! mp4Filename] =>
        destruct (files w2 !! mp4Filename); simpl;
        rewrite ?lookup_delete_ne by congruence; apply (Hout w2 eq_refl)
    end.
Qed.

(** A job touches its two destinations and no other file, however it
    ends. *)
Lemma cameraBody_files (j : Job) (out : list OutputFileType) (w : World)
    (other : string) :
  other <> mp4FilenameOf rt j -> other <> mkvFilenameOf rt j ->
  files (snd (cameraBody rt args (job_end j) (job_camera j) (job_start j) out w))
    !! other
  = files w !! other.
Proof.
  intros H1 H2. unfold cameraBody, bind.
  fold (mp4FilenameOf rt j). fold (mkvFilenameOf rt j). fold (urlOf args j).
  pose proof (skipExisting_files (mp4FilenameOf rt j) w other H1) as Hs.
  destruct (skipExisting (mp4FilenameOf rt j) w) as [[[|]|e] w1]; simpl in Hs;
    [exact Hs| |exact Hs].
  pose proof (download_files (urlOf args j) (mp4FilenameOf rt j) w1 other H1) as Hd.
  destruct (download rt args (urlOf args j) (mp4FilenameOf rt j) w1)
    as [[[]|e] w2]; simpl in Hd; [|simpl; congruence].
  pose proof (convert_files (default true (mp4 args)) (mp4FilenameOf rt j)
                (mkvFilenameOf rt j) w2 other H1 H2) as Hc.
  destruct (convert rt args (default true (mp4 args)) (mp4FilenameOf rt j)
              (mkvFilenameOf rt j) w2) as [[[]|e] w3]; simpl in Hc; simpl; congruence.
Qed.

Lemma runJobs_files (js : list Job) (other : string) :
  (forall j, j ∈ js -> other <> mp4FilenameOf rt j /\ other <> mkvFilenameOf rt j) ->
  forall (out : list OutputFileType) (w : World),
  files (snd (runJobs rt args js out w)) !! other = files w !! other.
Proof.
  induction js as [|j js IH]; intros Hall out w; simpl; [reflexivity|].
  destruct (Hall j ltac:(left)) as [H1 H2].
  unfold bind, runJob, bind.
  pose proof (cameraBody_files j out w other H1 H2) as Hb.
  destruct (cameraBody rt args (job_end j) (job_camera j) (job_start j) out w)
    as [[st|e] w1]; simpl in Hb; [|exact Hb].
  unfold ret. rewrite IH; [exact Hb|].
  intros j' Hj'. apply Hall. right. exact Hj'.
Qed.

End WholeRun.

Lemma Forall_of_sublist {A} (P : A -> Prop) (l k : list A) :
  sublist l k -> Forall P k -> Forall P l.
Proof.
  induction 1 as [|x l k _ IH|x l k _ IH]; intros Hk.
  - constructor.
  - apply Forall_cons in Hk as [Hx Hk]. constructor; auto.
  - apply Forall_cons in Hk as [_ Hk]. auto.
Qed.

(** X17. A run in which the destination of every planned job is there and
    not empty makes no request, reports nothing to the callback, changes
    no file and no jar, and returns the empty list: it logs one line per
    job and that is all. *)
Theorem rerun_skips_everything (rt : Runtime) (args : Args) (fuel : nat)
    (js : list Job) (w : World) :
  jobs fuel (cameras args) (args_end args) (args_start args) = Some js ->
  (forall j, j ∈ js ->
     exists size, files w !! mp4FilenameOf rt j = Some size /\ size <> 0%N) ->
  exists logs w',
    fetchVideo rt args fuel w = Some (Resolved [], w') /\
    events w' = (ConsoleLog <$> logs) ++ events w /\
    List.length logs = List.length js /\
    files w' = files w /\ jars w' = jars w.
Proof.
  intros Hjobs Hall. unfold fetchVideo.
  rewrite (whileLoop_runJobs rt args fuel _ [] w js Hjobs).
  destruct (runJobs_all_skipped rt args js [] w Hall)
    as (logs & w' & -> & Hev & Hlen & Hf & Hj & _).
  eauto 10.
Qed.

Lemma rerun_skips_everything_witness :
  let rt := Scenario.runtime Scenario.slow Scenario.ok Scenario.kilobyte
              Scenario.remuxed in
  let args := Scenario.job [Scenario.camA] 0 60000 None in
  let w := Scenario.withFile "0_60000_A.mp4" 7 Scenario.world0 in
  exists logs w',
    fetchVideo rt args 1 w = Some (Resolved [], w') /\
    events w' = (ConsoleLog <$> logs) ++ events w /\
    List.length logs = 1%nat /\
    files w' = files w /\ jars w' = jars w.
Proof.
  intros rt args w.
  apply (rerun_skips_everything rt args 1
           [{| job_camera := Scenario.camA; job_start := 0; job_end := 60000 |}] w).
  - vm_compute. reflexivity.
  - intros j Hj. apply list_elem_of_singleton in Hj. subst j.
    exists 7%N. split; [vm_compute; reflexivity | discriminate].
Defined.

(** The login, in full. *)
Lemma getCookies_parts (rt : Runtime) (authPayload : AuthPayload)
    (ipAddress : string) (w : World) :
  let req := {| method := POST;
                url := "https://" +:+ ipAddress +:+ ":443/api/auth/login";
                cookie := "";
                body := Some (URLSearchParams rt authPayload) |} in
  let run := getCookies rt authPayload ipAddress w in
  exists new,
    events (snd run) = new ++ events w /\
    Forall (fun e => (exists res, e = HttpAttempt req res) \/ e = SetTimeout 0) new /\
    files (snd run) = files w /\
    match fst run with
    | Resolved r =>
        exists resp,
          last (attempts new) = Some (HttpResponse resp) /\
          (r, jars (snd run))
          = mergeSetCookie (set_cookie resp) (List.length (jars w)) (jars w ++ [∅])
    | Rejected e => jars (snd run) = jars w ++ [∅]
    end.
Proof.
  intros req run. subst run.
  unfold getCookies, bind, newObject, allocObject. cbv beta iota zeta.
  set (w1 := setJars (jars w ++ [∅]) w).
  destruct (postWithCookies_parts rt
              ("https://" +:+ ipAddress +:+ ":443/api/auth/login")
              authPayload
              (List.length (jars w)) w1)
    as (new & res & Hev & Hn & Hlast & Hf & Hres).
  cbv zeta in *. simpl jars in Hn, Hres. rewrite deref_last in Hn.
  change (cookieHeader ∅) with "" in Hn.
  exists new.
  destruct (postWithCookies _ _ _ _ w1) as [[[text r]|e] w2]; simpl in *.
  - destruct Hres as (resp & -> & _ & Hm). eauto 10.
  - destruct Hres as [_ Hj]. auto.
Qed.

(** X18. The login: every attempt, retries included, is the same POST to
    [https://<ipAddress>:443/api/auth/login], with an empty [Cookie]
    header and, as body, the caller's auth object as [URLSearchParams]
    encodes it: all its properties, in the object's own order. This holds
    whatever jars exist. No file is touched. When it resolves, the jar it
    returns is the merge of the last response's [Set-Cookie] headers into a
    new empty jar. *)
Theorem login_in_full (rt : Runtime) (authPayload : AuthPayload)
    (ipAddress : string) (w : World) :
  let req := {| method := POST;
                url := "https://" +:+ ipAddress +:+ ":443/api/auth/login";
                cookie := "";
                body := Some (URLSearchParams rt authPayload) |} in
  let run := getCookies rt authPayload ipAddress w in
  exists new,
    events (snd run) = new ++ events w /\
    Forall (fun e => (exists res, e = HttpAttempt req res) \/ e = SetTimeout 0) new /\
    files (snd run) = files w /\
    match fst run with
    | Resolved r =>
        exists resp,
          last (attempts new) = Some (HttpResponse resp) /\
          (r, jars (snd run))
          = mergeSetCookie (set_cookie resp) (List.length (jars w)) (jars w ++ [∅])
    | Rejected e => jars (snd run) = jars w ++ [∅]
    end.
Proof. apply getCookies_parts. Qed.

(** X19. A run never creates, changes or deletes a file other than the
    [.mp4] and [.mkv] destinations of its planned jobs, however it ends. *)
Theorem other_files_untouched (rt : Runtime) (args : Args) (fuel : nat)
    (js : list Job) (o : Outcome (list OutputFileType)) (w w' : World)
    (other : string) :
  jobs fuel (cameras args) (args_end args) (args_start args) = Some js ->
  fetchVideo rt args fuel w = Some (o, w') ->
  (forall j, j ∈ js -> other <> mp4FilenameOf rt j /\ other <> mkvFilenameOf rt j) ->
  files w' !! other = files w !! other.
Proof.
  intros Hjobs Hrun Hother. unfold fetchVideo in Hrun.
  rewrite (whileLoop_runJobs rt args fuel _ [] w js Hjobs) in Hrun.
  injection Hrun as Hrun.
  pose proof (runJobs_files rt args js other Hother [] w) as Hf.
  rewrite Hrun in Hf. exact Hf.
Qed.

Lemma other_files_untouched_witness :
  let rt := Scenario.runtime Scenario.slow Scenario.ok Scenario.kilobyte
              Scenario.remuxFails in
  let args := Scenario.job [Scenario.camA] 0 60000 (Some false) in
  let w := Scenario.withFile "notes.txt" 12 Scenario.world0 in
  (files <$> finalWorld (fetchVideo rt args 1 w)) ≫= (.!! "notes.txt")
  = Some 12%N.
Proof.
  intros rt args w.
  destruct (fetchVideo rt args 1 w) as [[o w']|] eqn:E.
  2:{ revert E. vm_compute. discriminate. }
  simpl.
  rewrite (other_files_untouched rt args 1
             [{| job_camera := Scenario.camA; job_start := 0; job_end := 60000 |}]
             o w w' "notes.txt" ltac:(vm_compute; reflexivity) E).
  - vm_compute. reflexivity.
  - intros j Hj. apply list_elem_of_singleton in Hj. subst j.
    split; vm_compute; discriminate.
Defined.

(** ** What the callback sees *)

Section Reports.

Variable rt : Runtime.
Variable args : Args.

Lemma getCookies_statuses (authPayload : AuthPayload) (ipAddress : string)
    (w : World) :
  statuses (events (snd (getCookies rt authPayload ipAddress w)))
  = statuses (events w).
Proof.
  unfold getCookies, bind, newObject, allocObject. cbv beta iota zeta.
  set (w1 := setJars (jars w ++ [∅]) w).
  destruct (postWithCookies_parts rt
              ("https://" +:+ ipAddress +:+ ":443/api/auth/login")
              authPayload
              (List.length (jars w)) w1)
    as (new & res & Hev & Hn & _).
  cbv zeta in *.
  assert (Hst : statuses (events (snd (postWithCookies rt
                  ("https://" +:+ ipAddress +:+ ":443/api/auth/login")
                  authPayload
                  (Some (List.length (jars w))) w1)))
                = statuses (events w)).
  { rewrite Hev, statuses_app, (statuses_wire _ _ Hn), app_nil_r. reflexivity. }
  destruct (postWithCookies _ _ _ _ w1) as [[r|e] w2]; exact Hst.
Qed.

(** The reports of a chunk that was downloaded. *)
Lemma download_statuses (url path : string) (w w' : World) :
  download rt args url path w = (Resolved tt, w') ->
  exists ps t,
    statuses (events w')
    = statuses (events w) ++
      (if statusCallback args
       then WaitingStatus
            :: ((fun p => DownloadingStatus (Some (percent rt p))) <$> ps)
            ++ [DownloadingStatus (Some "100%"); DownloadThroughputStatus t]
       else []).
Proof.
  unfold download, bind, ask. cbv beta iota.
  pose proof (getCookies_statuses (auth args) (ipAddress args) w) as Hs0.
  destruct (getCookies rt (auth args) (ipAddress args) w) as [[c|e] w1];
    [|discriminate].
  simpl in Hs0.
  destruct (getBinaryDataWithCookies rt url (Some c) path (statusCallback args) w1)
    as [[r|e] w2] eqn:Eget; [|discriminate].
  destruct (getBinaryDataWithCookies_resolved rt _ _ _ _ _ _ _ Eget)
    as (ps & size & Hs1 & _).
  unfold Fs.statSync_size.
  destruct (files w2 !! path) as [n|]; [|discriminate].
  set (t := throughputString
              (Num.div n (DateFns.differenceInSeconds (now rt w2) (now rt w)))).
  destruct (notify_run (statusCallback args) (DownloadThroughputStatus t) w2)
    as (w3 & -> & Hev3 & _).
  intros [= <-]. exists ps, t.
  rewrite Hev3, statuses_app, statuses_notified, Hs1, Hs0.
  destruct (statusCallback args); rewrite <- ?app_assoc; simpl;
    rewrite <- ?app_assoc; reflexivity.
Qed.

Lemma convert_statuses (mp4Flag : bool) (mp4Filename mkvFilename : string)
    (w w' : World) :
  convert rt args mp4Flag mp4Filename mkvFilename w = (Resolved tt, w') ->
  statuses (events w')
  = statuses (events w) ++
    (if mp4Flag then [] else if statusCallback args then [ConvertingStatus] else []).
Proof.
  unfold convert. destruct mp4Flag.
  - intros [= <-]. rewrite app_nil_r. reflexivity.
  - change (negb false) with true. cbv iota. unfold bind.
    destruct (notify_run (statusCallback args) ConvertingStatus w)
      as (w1 & -> & Hev & _).
    unfold convertToMkv. cbv beta iota zeta.
    destruct (failure (ffmpeg rt w1 mp4Filename mkvFilename)); [discriminate|].
    unfold Fs.unlinkSync.
    assert (Hrun : forall w2,
              events w2 = FfmpegRun mp4Filename mkvFilename :: events w1 ->
              statuses (events w2)
              = statuses (events w) ++
                (if statusCallback args then [ConvertingStatus] else [])).
    { intros w2 ->. rewrite Hev.
      change (FfmpegRun mp4Filename mkvFilename
                :: notified (statusCallback args) ConvertingStatus ++ events w)
        with ([FfmpegRun mp4Filename mkvFilename]
                ++ notified (statusCallback args) ConvertingStatus ++ events w).
      rewrite !statuses_app, statuses_notified. simpl. rewrite app_nil_r.
      reflexivity. }
    destruct (output (ffmpeg rt w1 mp4Filename mkvFilename)); simpl;
      match goal with
      | |- context [?m !! mp4Filename] =>
          destruct (m !! mp4Filename); [|discriminate]
      end;
      intros [= <-]; apply Hrun; reflexivity.
Qed.

Lemma statuses_log (msg : string) (w : World) :
  statuses (events (emit (ConsoleLog msg) w)) = statuses (events w).
Proof.
  change (events (emit (ConsoleLog msg) w)) with ([ConsoleLog msg] ++ events w).
  rewrite statuses_app. simpl. apply app_nil_r.
Qed.

(** A job either is skipped, and then reports nothing, or adds its record
    and reports its download, then its throughput, then the conversion if
    one was asked for. *)
Lemma cameraBody_statuses (j : Job) (out : list OutputFileType) (w w' : World)
    (st : Z * list OutputFileType) :
  cameraBody rt args (job_end j) (job_camera j) (job_start j) out w
  = (Resolved st, w') ->
  (snd st = out /\ statuses (events w') = statuses (events w)) \/
  (snd st = out ++ [recordOf rt args j] /\
   exists ps t,
     statuses (events w')
     = statuses (events w) ++
       (if statusCallback args
        then WaitingStatus
             :: ((fun p => DownloadingStatus (Some (percent rt p))) <$> ps)
             ++ [DownloadingStatus (Some "100%"); DownloadThroughputStatus t]
             ++ (if default true (mp4 args) then [] else [ConvertingStatus])
        else [])).
Proof.
  unfold cameraBody, bind, ret.
  fold (mp4FilenameOf rt j). fold (mkvFilenameOf rt j). fold (urlOf args j).
  destruct (files w !! mp4FilenameOf rt j) as [size|] eqn:Hfile.
  - destruct (N.eq_dec size 0%N) as [->|Hsize].
    + rewrite (skipExisting_empty _ _ Hfile).
      set (w1 := setFiles _ w).
      destruct (download rt args (urlOf args j) (mp4FilenameOf rt j) w1)
        as [[[]|e] w2] eqn:Ed; [|discriminate].
      destruct (convert rt args (default true (mp4 args)) (mp4FilenameOf rt j)
                  (mkvFilenameOf rt j) w2) as [[[]|e] w3] eqn:Ec; [|discriminate].
      intros [= <- <-]. right. split; [reflexivity|].
      destruct (download_statuses _ _ _ _ Ed) as (ps & t & Hd).
      exists ps, t. rewrite (convert_statuses _ _ _ _ _ Ec), Hd.
      destruct (statusCallback args), (default true (mp4 args)); simpl;
        rewrite <- ?app_assoc, ?app_nil_r; simpl; rewrite <- ?app_assoc; reflexivity.
    + rewrite (skipExisting_nonempty _ _ _ Hfile Hsize).
      intros [= <- <-]. left. split; [reflexivity | apply statuses_log].
  - rewrite (skipExisting_absent _ _ Hfile).
    destruct (download rt args (urlOf args j) (mp4FilenameOf rt j) w)
      as [[[]|e] w2] eqn:Ed; [|discriminate].
    destruct (convert rt args (default true (mp4 args)) (mp4FilenameOf rt j)
                (mkvFilenameOf rt j) w2) as [[[]|e] w3] eqn:Ec; [|discriminate].
    intros [= <- <-]. right. split; [reflexivity|].
    destruct (download_statuses _ _ _ _ Ed) as (ps & t & Hd).
    exists ps, t. rewrite (convert_statuses _ _ _ _ _ Ec), Hd.
    destruct (statusCallback args), (default true (mp4 args)); simpl;
      rewrite <- ?app_assoc, ?app_nil_r; simpl; rewrite <- ?app_assoc; reflexivity.
Qed.

(** The reports of a chunk that was downloaded, in full. *)
Lemma download_exact (url path : string) (w w' : World) :
  download rt args url path w = (Resolved tt, w') ->
  exists c wc uc w2,
    getCookies rt (auth args) (ipAddress args) w = (Resolved c, wc) /\
    getBinaryDataWithCookies rt url (Some c) path (statusCallback args) wc
    = (Resolved uc, w2) /\
    let s := bodyOf rt url (Some c) path (statusCallback args) wc in
    statuses (events w')
    = statuses (events w) ++
      (if statusCallback args
       then downloadReports rt s ++
            [DownloadThroughputStatus
               (throughputString
                  (Num.div (written s)
                     (DateFns.differenceInSeconds (now rt w2) (now rt w))))]
       else []).
Proof.
  unfold download, bind, ask. cbv beta iota.
  pose proof (getCookies_statuses (auth args) (ipAddress args) w) as Hs0.
  destruct (getCookies rt (auth args) (ipAddress args) w) as [[c|e] w1];
    [|discriminate].
  simpl in Hs0.
  destruct (getBinaryDataWithCookies rt url (Some c) path (statusCallback args) w1)
    as [[r|e] w2] eqn:Eget; [|discriminate].
  destruct (getBinaryDataWithCookies_exact rt _ _ _ _ _ _ _ Eget)
    as (_ & Hs1 & Hf1).
  cbv zeta in Hs1, Hf1.
  set (s := bodyOf rt url (Some c) path (statusCallback args) w1) in *.
  unfold Fs.statSync_size. rewrite Hf1, lookup_insert_eq.
  set (t := throughputString
              (Num.div (written s)
                 (DateFns.differenceInSeconds (now rt w2) (now rt w)))).
  destruct (notify_run (statusCallback args) (DownloadThroughputStatus t) w2)
    as (w3 & -> & Hev3 & _).
  intros [= <-]. exists c, w1, r, w2.
  split; [reflexivity|]. split; [exact Eget|]. cbv zeta. fold s. fold t.
  rewrite Hev3, statuses_app, statuses_notified, Hs1, Hs0.
  destruct (statusCallback args); rewrite <- ?app_assoc; simpl;
    rewrite <- ?app_assoc; reflexivity.
Qed.

Lemma cleared_absent (j : Job) (w : World) :
  files w !! mp4FilenameOf rt j = None -> cleared rt j w = w.
Proof.
  intros H. unfold cleared, setFiles. rewrite (delete_id _ _ H).
  destruct w; reflexivity.
Qed.

(** A job is skipped exactly when its destination is there and not empty,
    and then it reports nothing; otherwise it adds its record and reports
    its download, then its throughput, then the conversion if one was
    asked for. *)
Lemma cameraBody_exact (j : Job) (out : list OutputFileType) (w w' : World)
    (st : Z * list OutputFileType) :
  cameraBody rt args (job_end j) (job_camera j) (job_start j) out w
  = (Resolved st, w') ->
  if kept rt w j
  then snd st = out /\ statuses (events w') = statuses (events w)
  else
    snd st = out ++ [recordOf rt args j] /\
    exists c wc uc w2,
      getCookies rt (auth args) (ipAddress args) (cleared rt j w)
      = (Resolved c, wc) /\
      getBinaryDataWithCookies rt (urlOf args j) (Some c) (mp4FilenameOf rt j)
        (statusCallback args) wc
      = (Resolved uc, w2) /\
      let s := bodyOf rt (urlOf args j) (Some c) (mp4FilenameOf rt j)
                 (statusCallback args) wc in
      statuses (events w')
      = statuses (events w) ++
        (if statusCallback args
         then chunkReports rt args s (cleared rt j w) w2
         else []).
Proof.
  assert (Hgo : forall w0,
            statuses (events w0) = statuses (events w) ->
            (_ <- download rt args (urlOf args j) (mp4FilenameOf rt j) ;;
             _ <- convert rt args (default true (mp4 args)) (mp4FilenameOf rt j)
                    (mkvFilenameOf rt j) ;;
             ret (DateFns.add (job_start j) maxMinuteDiff,
                  out ++ [recordOf rt args j])) w0
            = (Resolved st, w') ->
            snd st = out ++ [recordOf rt args j] /\
            exists c wc uc w2,
              getCookies rt (auth args) (ipAddress args) w0 = (Resolved c, wc) /\
              getBinaryDataWithCookies rt (urlOf args j) (Some c)
                (mp4FilenameOf rt j) (statusCallback args) wc
              = (Resolved uc, w2) /\
              statuses (events w')
              = statuses (events w) ++
                (if statusCallback args
                 then chunkReports rt args
                        (bodyOf rt (urlOf args j) (Some c) (mp4FilenameOf rt j)
                           (statusCallback args) wc) w0 w2
                 else [])).
  { intros w0 Hw0. unfold bind, ret.
    destruct (download rt args (urlOf args j) (mp4FilenameOf rt j) w0)
      as [[[]|e] w2] eqn:Ed; [|discriminate].
    destruct (convert rt args (default true (mp4 args)) (mp4FilenameOf rt j)
                (mkvFilenameOf rt j) w2) as [[[]|e] w3] eqn:Ec; [|discriminate].
    intros [= <- <-]. split; [reflexivity|].
    destruct (download_exact _ _ _ _ Ed) as (c & wc & uc & wd & Hc & Hg & Hd).
    exists c, wc, uc, wd. split; [exact Hc|]. split; [exact Hg|].
    cbv zeta in Hd.
    rewrite (convert_statuses _ _ _ _ _ Ec), Hd, Hw0. unfold chunkReports.
    destruct (statusCallback args), (default true (mp4 args)); simpl;
      rewrite <- ?app_assoc, ?app_nil_r; simpl; rewrite <- ?app_assoc; reflexivity. }
  unfold cameraBody, kept, bind.
  fold (mp4FilenameOf rt j). fold (mkvFilenameOf rt j). fold (urlOf args j).
  destruct (files w !! mp4FilenameOf rt j) as [size|] eqn:Hfile.
  - destruct (N.eq_dec size 0%N) as [->|Hsize].
    + rewrite (skipExisting_empty _ _ Hfile). cbv iota.
      change (negb (0 =? 0)%N) with false. cbv iota.
      fold (cleared rt j w). intros Hrun.
      apply (Hgo (cleared rt j w) eq_refl), Hrun.
    + rewrite (skipExisting_nonempty _ _ _ Hfile Hsize).
      apply N.eqb_neq in Hsize. rewrite Hsize. simpl negb. cbv iota.
      unfold ret. intros [= <- <-]. split; [reflexivity | apply statuses_log].
  - rewrite (skipExisting_absent _ _ Hfile). cbv iota. intros Hrun.
    rewrite (cleared_absent _ _ Hfile).
    apply (Hgo w eq_refl), Hrun.
Qed.

End Reports.

Section ReportCounts.

Variable rt : Runtime.
Variable args : Args.

Lemma throughputs_downloading (ps : list (option Q)) :
  throughputs ((fun p => DownloadingStatus (Some (percent rt p))) <$> ps) = [].
Proof. induction ps as [|p ps IH]; [reflexivity | exact IH]. Qed.

Lemma throughputs_app (a b : list Status) :
  throughputs (a ++ b) = throughputs a ++ throughputs b.
Proof. apply omap_app. Qed.

Lemma throughputs_chunk (ps : list (option Q)) (t : string) (mp4Flag : bool) :
  throughputs
    (WaitingStatus
       :: ((fun p => DownloadingStatus (Some (percent rt p))) <$> ps)
       ++ [DownloadingStatus (Some "100%"); DownloadThroughputStatus t]
       ++ (if mp4Flag then [] else [ConvertingStatus]))
  = [t].
Proof.
  change (WaitingStatus :: ?l) with ([WaitingStatus] ++ l).
  rewrite !throughputs_app, throughputs_downloading.
  destruct mp4Flag; reflexivity.
Qed.

Lemma runJobs_throughputs (js : list Job) :
  statusCallback args = true ->
  forall (out out' : list OutputFileType) (w w' : World),
  runJobs rt args js out w = (Resolved out', w') ->
  (List.length (throughputs (statuses (events w'))) + List.length out
   = List.length (throughputs (statuses (events w))) + List.length out')%nat.
Proof.
  intros Hcb. induction js as [|j js IH]; intros out out' w w'; simpl.
  - intros [= <- <-]. reflexivity.
  - unfold bind, runJob, bind.
    destruct (cameraBody rt args (job_end j) (job_camera j) (job_start j) out w)
      as [[st|e] w1] eqn:Ebody; [|discriminate].
    unfold ret. intros Hrest. specialize (IH _ _ _ _ Hrest).
    destruct (cameraBody_statuses rt args _ _ _ _ _ Ebody)
      as [[Hout Hst] | [Hout (ps & t & Hst)]].
    + rewrite Hout in IH. rewrite <- Hst. exact IH.
    + rewrite Hout, length_app in IH. simpl in IH.
      rewrite Hst, Hcb, throughputs_app, throughputs_chunk, length_app in IH.
      simpl in IH. lia.
Qed.

End ReportCounts.

Section Records.

Variable rt : Runtime.
Variable args : Args.

Lemma mp4_not_mkv (a b : string) : a +:+ ".mp4" <> b +:+ ".mkv".
Proof.
  revert b. induction a as [|c a IH]; intros [|d b] H;
    rewrite ?append_cons, ?append_nil in H.
  - discriminate.
  - injection H as _ H.
    destruct b as [|? [|? [|? [|? b]]]]; rewrite ?append_cons, ?append_nil in H;
      discriminate.
  - injection H as _ H.
    destruct a as [|? [|? [|? [|? a]]]]; rewrite ?append_cons, ?append_nil in H;
      discriminate.
  - injection H as _ H. exact (IH _ H).
Qed.

Lemma cameraBody_kept (j j' : Job) (out : list OutputFileType) (w : World) :
  mp4FilenameOf rt j' <> mp4FilenameOf rt j ->
  kept rt (snd (cameraBody rt args (job_end j) (job_camera j) (job_start j) out w)) j'
  = kept rt w j'.
Proof.
  intros Hne. unfold kept.
  rewrite cameraBody_files; [reflexivity | exact Hne | apply mp4_not_mkv].
Qed.

(** With destinations that differ from job to job, the records added are
    those of the jobs whose destination was not there, or was there empty,
    when the run began. *)
Lemma runJobs_exact (js : list Job) :
  NoDup (mp4FilenameOf rt <$> js) ->
  forall (out out' : list OutputFileType) (w w' : World),
  runJobs rt args js out w = (Resolved out', w') ->
  out' = out ++ (recordOf rt args <$> due rt w js).
Proof.
  induction js as [|j js IH]; intros Hnd out out' w w'; simpl.
  - intros [= <- _]. rewrite app_nil_r. reflexivity.
  - rewrite fmap_cons in Hnd. apply NoDup_cons in Hnd as [Hj Hnd].
    unfold bind, runJob, bind.
    destruct (cameraBody rt args (job_end j) (job_camera j) (job_start j) out w)
      as [[st|e] w1] eqn:Ebody; [|discriminate].
    unfold ret. intros Hrest. rewrite (IH Hnd _ _ _ _ Hrest).
    assert (Hdue : due rt w1 js = due rt w js).
    { unfold due. apply List.filter_ext_in. intros j' Hin. f_equal.
      replace w1
        with (snd (cameraBody rt args (job_end j) (job_camera j) (job_start j) out w))
        by (rewrite Ebody; reflexivity).
      apply cameraBody_kept. intros Heq. apply Hj. rewrite <- Heq.
      apply (list_elem_of_fmap_2 (mp4FilenameOf rt)), list_elem_of_In, Hin. }
    rewrite Hdue.
    pose proof (cameraBody_exact rt args _ _ _ _ _ Ebody) as Hx.
    unfold due. simpl List.filter.
    destruct (kept rt w j); simpl.
    + destruct Hx as [-> _]. reflexivity.
    + destruct Hx as [-> _]. rewrite <- app_assoc. reflexivity.
Qed.

End Records.

(** X16. The list [fetchVideo] returns holds records of planned jobs only,
    in the order of the schedule, and every record carries the start and
    the end of the whole request, not those of its window. When the
    destinations differ from job to job, the list is exactly the records of
    the planned jobs whose destination was not there, or was there empty,
    when the run began: each of them, once, in the order of the schedule,
    and nothing else. *)
Theorem output_records_follow_schedule (rt : Runtime) (args : Args) (fuel : nat)
    (js : list Job) (out : list OutputFileType) (w w' : World) :
  jobs fuel (cameras args) (args_end args) (args_start args) = Some js ->
  fetchVideo rt args fuel w = Some (Resolved out, w') ->
  sublist out (recordOf rt args <$> js) /\
  Forall (fun o => start o = args_start args /\ end_ o = args_end args) out /\
  (NoDup (mp4FilenameOf rt <$> js) ->
   out = recordOf rt args <$> List.filter (fun j => negb (kept rt w j)) js).
Proof.
  intros Hjobs Hrun. unfold fetchVideo in Hrun.
  rewrite (whileLoop_runJobs rt args fuel _ [] w js Hjobs) in Hrun.
  injection Hrun as Hrun.
  split; [|split].
  - destruct (runJobs_records rt args js [] out w w' Hrun) as (news & -> & Hsub).
    exact Hsub.
  - destruct (runJobs_records rt args js [] out w w' Hrun) as (news & -> & Hsub).
    apply (Forall_of_sublist _ _ _ Hsub).
    apply Forall_fmap, Forall_true. intros j. simpl. auto.
  - intros Hnd. exact (runJobs_exact rt args js Hnd [] out w w' Hrun).
Qed.

Lemma output_records_witness :
  let rt := Scenario.runtime Scenario.slow Scenario.ok Scenario.kilobyte
              Scenario.remuxed in
  let args := Scenario.job [Scenario.camA] 0 9000000 None in
  let w := Scenario.withFile "3600000_7200000_A.mp4" 7 Scenario.world0 in
  exists out,
    fst <$> fetchVideo rt args 3 w = Some (Resolved out) /\
    Forall (fun o => start o = 0 /\ end_ o = 9000000) out /\
    filename <$> out = ["0_3600000_A.mp4"; "7200000_9000000_A.mp4"].
Proof.
  intros rt args w.
  destruct (fetchVideo rt args 3 w) as [[o w']|] eqn:E.
  2:{ revert E. vm_compute. discriminate. }
  assert (Ho : exists out, o = Resolved out).
  { revert E. vm_compute. intros [= <- _]. eauto. }
  destruct Ho as (out & ->).
  destruct (jobs 3 (cameras args) (args_end args) (args_start args)) as [js|] eqn:Ej.
  2:{ revert Ej. vm_compute. discriminate. }
  destruct (output_records_follow_schedule rt args 3 js out _ _ Ej E)
    as (_ & Hall & Hexact).
  exists out. split; [reflexivity|]. split; [exact Hall|].
  revert Ej. vm_compute jobs. intros [= <-].
  rewrite Hexact; [vm_compute; reflexivity|].
  match goal with |- ?P => apply (bool_decide_unpack P) end.
  vm_compute. exact I.
Defined.


(** X20. What the callback receives for one (camera, window) pair that
    completes, with a callback that returns. The pair is skipped exactly
    when its destination is there and not empty: then nothing is reported
    and no record is added. Otherwise the pair adds its record, the login
    and the download went through from the world without the destination,
    and the callback has received, in this order and nothing else:
    [Waiting]; one [Downloading] with the formatted progress for each
    progress event of the body; [Downloading] with ["100%"];
    [DownloadThroughput] with the formatted quotient of the bytes written
    by the whole seconds between the reading of the clock before the login
    and the one after the download; and [Converting] when [mp4] is
    false. *)
Theorem chunk_reports_in_order (rt : Runtime) (args : Args) (j : Job)
    (out : list OutputFileType) (w w' : World) (st : Z * list OutputFileType) :
  cameraBody rt args (job_end j) (job_camera j) (job_start j) out w
  = (Resolved st, w') ->
  if kept rt w j
  then snd st = out /\ statuses (events w') = statuses (events w)
  else
    snd st = out ++ [recordOf rt args j] /\
    exists c wc uc w2,
      getCookies rt (auth args) (ipAddress args) (cleared rt j w)
      = (Resolved c, wc) /\
      getBinaryDataWithCookies rt (urlOf args j) (Some c) (mp4FilenameOf rt j)
        (statusCallback args) wc
      = (Resolved uc, w2) /\
      let s := bodyOf rt (urlOf args j) (Some c) (mp4FilenameOf rt j)
                 (statusCallback args) wc in
      statuses (events w')
      = statuses (events w) ++
        (if statusCallback args
         then WaitingStatus
              :: ((fun p => DownloadingStatus (Some (percent rt p))) <$> ticks s)
              ++ [DownloadingStatus (Some "100%")]
              ++ [DownloadThroughputStatus
                    (throughputString
                       (Num.div (written s)
                          (DateFns.differenceInSeconds (now rt w2)
                             (now rt (cleared rt j w)))))]
              ++ (if default true (mp4 args) then [] else [ConvertingStatus])
         else []).
Proof.
  intros H. pose proof (cameraBody_exact rt args _ _ _ _ _ H) as Hx.
  destruct (kept rt w j); [exact Hx|].
  destruct Hx as (Hrec & c & wc & uc & w2 & Hc & Hg & Hst).
  split; [exact Hrec|]. exists c, wc, uc, w2.
  split; [exact Hc|]. split; [exact Hg|].
  cbv zeta in *. rewrite Hst. unfold chunkReports, downloadReports.
  destruct (statusCallback args); [|reflexivity].
  simpl. rewrite <- !app_assoc. reflexivity.
Qed.

Lemma chunk_reports_witness :
  let rt := Scenario.runtime Scenario.slow Scenario.ok Scenario.halfway
              Scenario.remuxed in
  let args := Scenario.job [Scenario.camA] 0 60000 (Some false) in
  let j := {| job_camera := Scenario.camA; job_start := 0; job_end := 60000 |} in
  let run := cameraBody rt args 60000 Scenario.camA 0 [] Scenario.world0 in
  kept rt Scenario.world0 j = false /\
  (exists st, fst run = Resolved st /\ snd st = [recordOf rt args j]) /\
  statuses (events (snd run))
  = [WaitingStatus; DownloadingStatus (Some "50%");
     DownloadingStatus (Some "Unknown"); DownloadingStatus (Some "100%");
     DownloadThroughputStatus "167 B"; ConvertingStatus].
Proof.
  intros rt args j run. subst run.
  split; [vm_compute; reflexivity|].
  destruct (cameraBody rt args 60000 Scenario.camA 0 [] Scenario.world0)
    as [o w'] eqn:E.
  assert (Ho : exists st, o = Resolved st).
  { revert E. vm_compute. intros [= <- _]. eauto. }
  destruct Ho as (st & ->).
  pose proof (chunk_reports_in_order rt args j [] Scenario.world0 w' st E) as H.
  change (kept rt Scenario.world0 j) with false in H. cbv iota in H.
  destruct H as (Hrec & c & wc & uc & w2 & Hc & Hg & Hst).
  split; [exists st; split; [reflexivity | exact Hrec]|].
  simpl snd. clear E.
  vm_compute in Hc. injection Hc as <- <-.
  vm_compute in Hg. injection Hg as <- <-.
  rewrite Hst. vm_compute. reflexivity.
Defined.

(** X21. In a run with a callback that returns, the callback has received
    exactly one [DownloadThroughput] per record of the result. *)
Theorem one_throughput_per_record (rt : Runtime) (args : Args) (fuel : nat)
    (js : list Job) (out : list OutputFileType) (w w' : World) :
  statusCallback args = true ->
  jobs fuel (cameras args) (args_end args) (args_start args) = Some js ->
  fetchVideo rt args fuel w = Some (Resolved out, w') ->
  List.length (throughputs (statuses (events w')))
  = (List.length (throughputs (statuses (events w))) + List.length out)%nat.
Proof.
  intros Hcb Hjobs Hrun. unfold fetchVideo in Hrun.
  rewrite (whileLoop_runJobs rt args fuel _ [] w js Hjobs) in Hrun.
  injection Hrun as Hrun.
  pose proof (runJobs_throughputs rt args js Hcb [] out w w' Hrun) as H.
  simpl in H. lia.
Qed.

Lemma one_throughput_per_record_witness :
  let rt := Scenario.runtime Scenario.slow Scenario.ok Scenario.kilobyte
              Scenario.remuxed in
  let args := Scenario.job [Scenario.camA] 0 5400000 None in
  exists out w',
    fetchVideo rt args 2 Scenario.world0 = Some (Resolved out, w') /\
    List.length out = 2%nat /\
    List.length (throughputs (statuses (events w'))) = 2%nat.
Proof.
  intros rt args.
  destruct (fetchVideo rt args 2 Scenario.world0) as [[o w']|] eqn:E.
  2:{ revert E. vm_compute. discriminate. }
  assert (Ho : exists out, o = Resolved out /\ List.length out = 2%nat).
  { revert E. vm_compute. intros [= <- _]. eauto. }
  destruct Ho as (out & -> & Hlen).
  exists out, w'. split; [reflexivity|]. split; [exact Hlen|].
  rewrite (one_throughput_per_record rt args 2
             [{| job_camera := Scenario.camA; job_start := 0; job_end := 3600000 |};
              {| job_camera := Scenario.camA; job_start := 3600000;
                 job_end := 5400000 |}]
             out Scenario.world0 w' eq_refl ltac:(vm_compute; reflexivity) E).
  rewrite Hlen. reflexivity.
Defined.

(** ** The requests of a run *)

Section Wire.

Variable rt : Runtime.
Variable args : Args.

Lemma silent_expected (js : list Job) (new : list Event) :
  Forall silent new -> Forall (expected rt args js) new.
Proof.
  intros H. eapply Forall_impl; [exact H|].
  intros [req res| | | |]; simpl; tauto.
Qed.

Lemma silent_notified (cb : bool) (s : Status) : Forall silent (notified cb s).
Proof. destruct cb; repeat constructor. Qed.

Lemma silent_progressEvents (cb : bool) (ps : list (option Q)) :
  Forall silent (progressEvents rt cb ps).
Proof.
  unfold progressEvents. apply Forall_rev.
  induction ps as [|p ps IH]; [constructor|].
  rewrite bind_cons. apply Forall_app. split; [apply silent_notified | exact IH].
Qed.

(** Whatever the retry options, the attempts of a request all carry that
    request. *)
Lemma retrying_wire (o : AxiosRetryOptions) (req : Request) (remaining : nat) :
  forall (retryCount : nat) (w : World),
  exists new,
    events (snd (Axios.retrying rt o remaining retryCount req w)) = new ++ events w /\
    Forall (fun e => (exists res, e = HttpAttempt req res) \/ silent e) new.
Proof.
  assert (Hone : forall w,
            exists new,
              events (emit (HttpAttempt req (http rt w req)) w) = new ++ events w /\
              Forall (fun e => (exists res, e = HttpAttempt req res) \/ silent e) new).
  { intros w. exists [HttpAttempt req (http rt w req)]. split; [reflexivity|].
    repeat constructor. eauto. }
  induction remaining as [|remaining IH]; intros retryCount w;
    rewrite retrying_unfold;
    destruct (attempt_answers rt req w) as [E _]; rewrite E;
    destruct (fst (Axios.attempt rt req w)) as [r|e]; try apply Hone.
  destruct (retryCondition o e); [|apply Hone].
  destruct (IH (S retryCount)
              (emit (SetTimeout (retryDelay o (S retryCount) e))
                 (emit (HttpAttempt req (http rt w req)) w)))
    as (new & Hev & Hn).
  exists (new ++ [SetTimeout (retryDelay o (S retryCount) e);
                  HttpAttempt req (http rt w req)]).
  rewrite Hev, <- app_assoc. split; [reflexivity|].
  apply Forall_app. split; [exact Hn|].
  constructor; [right; exact I|]. constructor; [left; eauto | constructor].
Qed.

Lemma request_wire (req : Request) (w : World) :
  exists new,
    events (snd (Axios.request rt req w)) = new ++ events w /\
    Forall (fun e => (exists res, e = HttpAttempt req res) \/ silent e) new.
Proof.
  unfold Axios.request. destruct (axiosRetry w) as [o|].
  - apply retrying_wire.
  - destruct (attempt_answers rt req w) as [E _]. rewrite E.
    exists [HttpAttempt req (http rt w req)]. split; [reflexivity|].
    repeat constructor. eauto.
Qed.

(** The requests of a download are GETs of its URL, without body. *)
Lemma getBinaryDataWithCookies_wire (url : string) (cookies : option Ref)
    (path : string) (cb : bool) (w : World) :
  exists new,
    events (snd (getBinaryDataWithCookies rt url cookies path cb w))
    = new ++ events w /\
    Forall (fun e =>
              (exists c res,
                 e = HttpAttempt {| method := GET; url := url; cookie := c;
                                    body := None |} res) \/ silent e) new.
Proof.
  unfold getBinaryDataWithCookies, startDownload, bind.
  destruct (orEmptyJar_run cookies w) as (r & h & ->).
  unfold ask, Fs.createWriteStream, update. cbv beta iota.
  set (w0 := setFiles _ (setJars h w)).
  destruct (notify_run cb WaitingStatus w0) as (wa & -> & Hev1 & _).
  set (req := {| method := GET; url := url;
                 cookie := cookieHeader (deref (jars (setJars h w)) r);
                 body := None |}).
  destruct (request_wire req wa) as (new & Hev & Hn).
  assert (Hn' : Forall (fun e =>
              (exists c res,
                 e = HttpAttempt {| method := GET; url := url; cookie := c;
                                    body := None |} res) \/ silent e)
            (new ++ notified cb WaitingStatus)).
  { apply Forall_app. split.
    - eapply Forall_impl; [exact Hn|]. intros e [[res ->]|Hs]; [left|right]; eauto.
    - eapply Forall_impl; [apply silent_notified|]. auto. }
  destruct (Axios.request rt req wa) as [[resp|e] w2]; simpl in Hev.
  - destruct (mergeResponseCookies_run (set_cookie resp) r w2) as (r' & h' & ->).
    destruct (pipe_run rt path cb r' (setJars h' w2)) as (w3 & _ & _ & _ & Hend).
    cbv zeta in Hend.
    assert (Hany : exists status,
               snd (pipe rt path cb r' (setJars h' w2)) = w3 /\
               events w3 = notified cb status
                             ++ progressEvents rt cb (ticks (stream rt (setJars h' w2) path))
                             ++ events (setJars h' w2)).
    { destruct (finished (stream rt (setJars h' w2) path));
        destruct Hend as [-> ->]; eauto. }
    destruct Hany as (status & -> & ->). simpl events. rewrite Hev, Hev1.
    eexists. rewrite !app_assoc. split; [reflexivity|].
    rewrite <- !app_assoc. apply Forall_app. split.
    { eapply Forall_impl; [apply silent_notified|]. auto. }
    apply Forall_app. split; [|exact Hn'].
    eapply Forall_impl; [apply silent_progressEvents|]. auto.
  - simpl. rewrite Hev, Hev1. eexists. rewrite app_assoc.
    split; [reflexivity | exact Hn'].
Qed.

Lemma getCookies_wire (js : list Job) (w : World) :
  exists new,
    events (snd (getCookies rt (auth args) (ipAddress args) w)) = new ++ events w /\
    Forall (expected rt args js) new.
Proof.
  destruct (getCookies_parts rt (auth args) (ipAddress args) w)
    as (new & Hev & Hn & _).
  cbv zeta in *. exists new. split; [exact Hev|].
  eapply Forall_impl; [exact Hn|].
  intros e [[res ->] | ->]; simpl; auto.
Qed.

Lemma download_wire (js : list Job) (j : Job) (w : World) :
  j ∈ js ->
  exists new,
    events (snd (download rt args (urlOf args j) (mp4FilenameOf rt j) w))
    = new ++ events w /\
    Forall (expected rt args js) new.
Proof.
  intros Hj. unfold download, bind, ask. cbv beta iota.
  destruct (getCookies_wire js w) as (new0 & Hev0 & Hn0).
  destruct (getCookies rt (auth args) (ipAddress args) w) as [[c|e] w1];
    simpl in Hev0; [|simpl; eauto].
  destruct (getBinaryDataWithCookies_wire (urlOf args j) (Some c)
              (mp4FilenameOf rt j) (statusCallback args) w1)
    as (new1 & Hev1 & Hn1).
  assert (Hn1' : Forall (expected rt args js) new1).
  { eapply Forall_impl; [exact Hn1|].
    intros e [(ck & res & ->) | Hs].
    - simpl. right. repeat split; eauto.
    - destruct e; simpl in *; tauto. }
  destruct (getBinaryDataWithCookies rt (urlOf args j) (Some c)
              (mp4FilenameOf rt j) (statusCallback args) w1) as [[r|e] w2];
    simpl in Hev1.
  2:{ simpl. rewrite Hev1, Hev0, app_assoc. eexists. split; [reflexivity|].
      apply Forall_app. auto. }
  unfold Fs.statSync_size.
  destruct (files w2 !! mp4FilenameOf rt j) as [n|].
  2:{ simpl. rewrite Hev1, Hev0, app_assoc. eexists. split; [reflexivity|].
      apply Forall_app. auto. }
  destruct (notify_run (statusCallback args)
              (DownloadThroughputStatus
                 (throughputString
                    (Num.div n (DateFns.differenceInSeconds (now rt w2) (now rt w)))))
              w2) as (w3 & -> & Hev3 & _).
  simpl. rewrite Hev3, Hev1, Hev0, !app_assoc. eexists. split; [reflexivity|].
  repeat (apply Forall_app; split); auto.
  apply silent_expected, silent_notified.
Qed.

Lemma skipExisting_wire (js : list Job) (path : string) (w : World) :
  exists new,
    events (snd (skipExisting path w)) = new ++ events w /\
    Forall (expected rt args js) new.
Proof.
  destruct (files w !! path) as [size|] eqn:Hfile.
  - destruct (N.eq_dec size 0%N) as [->|Hsize].
    + rewrite (skipExisting_empty _ _ Hfile). exists []. split; [reflexivity | constructor].
    + rewrite (skipExisting_nonempty _ _ _ Hfile Hsize).
      eexists [_]. split; [reflexivity|]. repeat constructor.
  - rewrite (skipExisting_absent _ _ Hfile). exists []. split; [reflexivity | constructor].
Qed.

Lemma convert_wire (js : list Job) (mp4Flag : bool) (a b : string) (w : World) :
  exists new,
    events (snd (convert rt args mp4Flag a b w)) = new ++ events w /\
    Forall (expected rt args js) new.
Proof.
  unfold convert. destruct mp4Flag.
  { exists []. split; [reflexivity | constructor]. }
  change (negb false) with true. cbv iota. unfold bind.
  destruct (notify_run (statusCallback args) ConvertingStatus w)
    as (w1 & -> & Hev & _).
  unfold convertToMkv. cbv beta iota zeta.
  assert (Hsil : Forall (expected rt args js)
                   (notified (statusCallback args) ConvertingStatus))
    by apply silent_expected, silent_notified.
  destruct (failure (ffmpeg rt w1 a b)) as [err|];
    destruct (output (ffmpeg rt w1 a b)) as [n|]; unfold Fs.unlinkSync; simpl;
    try match goal with
        | |- context [?m !! a] => destruct (m !! a)
        end; simpl; rewrite Hev;
    match goal with
    | |- exists new, ?x :: ?y :: ?l ++ ?t = _ /\ _ =>
        exists (x :: y :: l); split; [reflexivity|];
        constructor; [exact I|]; constructor; [exact I | exact Hsil]
    | |- exists new, ?x :: ?l ++ ?t = _ /\ _ =>
        exists (x :: l); split; [reflexivity|];
        constructor; [exact I | exact Hsil]
    end.
Qed.

Lemma cameraBody_wire (js : list Job) (j : Job) (out : list OutputFileType)
    (w : World) :
  j ∈ js ->
  exists new,
    events (snd (cameraBody rt args (job_end j) (job_camera j) (job_start j) out w))
    = new ++ events w /\
    Forall (expected rt args js) new.
Proof.
  intros Hj. unfold cameraBody, bind.
  fold (mp4FilenameOf rt j). fold (mkvFilenameOf rt j). fold (urlOf args j).
  destruct (skipExisting_wire js (mp4FilenameOf rt j) w) as (n1 & Hev1 & Hn1).
  destruct (skipExisting (mp4FilenameOf rt j) w) as [[[|]|e] w1]; simpl in Hev1;
    [simpl; eauto| |simpl; eauto].
  destruct (download_wire js j w1 Hj) as (n2 & Hev2 & Hn2).
  destruct (download rt args (urlOf args j) (mp4FilenameOf rt j) w1)
    as [[[]|e] w2]; simpl in Hev2.
  2:{ simpl. rewrite Hev2, Hev1, app_assoc. eexists. split; [reflexivity|].
      apply Forall_app. auto. }
  destruct (convert_wire js (default true (mp4 args)) (mp4FilenameOf rt j)
              (mkvFilenameOf rt j) w2) as (n3 & Hev3 & Hn3).
  destruct (convert rt args (default true (mp4 args)) (mp4FilenameOf rt j)
              (mkvFilenameOf rt j) w2) as [[[]|e] w3]; simpl in Hev3; simpl;
    rewrite Hev3, Hev2, Hev1, !app_assoc; eexists; (split; [reflexivity|]);
    repeat (apply Forall_app; split); auto.
Qed.

Lemma runJobs_wire (all js : list Job) :
  js ⊆ all ->
  forall (out : list OutputFileType) (w : World),
  exists new,
    events (snd (runJobs rt args js out w)) = new ++ events w /\
    Forall (expected rt args all) new.
Proof.
  induction js as [|j js IH]; intros Hsub out w; simpl.
  - exists []. split; [reflexivity | constructor].
  - unfold bind, runJob, bind.
    destruct (cameraBody_wire all j out w) as (n1 & Hev1 & Hn1).
    { apply Hsub. left. }
    destruct (cameraBody rt args (job_end j) (job_camera j) (job_start j) out w)
      as [[st|e] w1]; simpl in Hev1; [|simpl; eauto].
    unfold ret.
    destruct (IH ltac:(intros x Hx; apply Hsub; right; exact Hx) (snd st) w1)
      as (n2 & Hev2 & Hn2).
    rewrite Hev2, Hev1, app_assoc. eexists. split; [reflexivity|].
    apply Forall_app. auto.
Qed.

End Wire.

(** X22. However a run ends, every request it has put on the wire is the
    login (the POST of [args.auth], encoded by [URLSearchParams] as the
    object stands, to the login URL of the given address, without cookies)
    or a GET without body of the export URL of one of its planned jobs;
    nothing else is ever requested. *)
Theorem only_expected_requests (rt : Runtime) (args : Args) (fuel : nat)
    (js : list Job) (o : Outcome (list OutputFileType)) (w w' : World) :
  jobs fuel (cameras args) (args_end args) (args_start args) = Some js ->
  fetchVideo rt args fuel w = Some (o, w') ->
  exists new,
    events w' = new ++ events w /\ Forall (expected rt args js) new.
Proof.
  intros Hjobs Hrun. unfold fetchVideo in Hrun.
  rewrite (whileLoop_runJobs rt args fuel _ [] w js Hjobs) in Hrun.
  injection Hrun as Hrun.
  destruct (runJobs_wire rt args js js ltac:(reflexivity) [] w) as (new & Hev & Hn).
  rewrite Hrun in Hev. eauto.
Qed.

Lemma only_expected_requests_witness :
  let rt := Scenario.runtime Scenario.slow Scenario.ok Scenario.kilobyte
              Scenario.remuxed in
  let args := Scenario.job [Scenario.camA] 0 60000 None in
  let js := [{| job_camera := Scenario.camA; job_start := 0; job_end := 60000 |}] in
  exists w' new,
    finalWorld (fetchVideo rt args 1 Scenario.world0) = Some w' /\
    events w' = new ++ events Scenario.world0 /\
    Forall (expected rt args js) new.
Proof.
  intros rt args js.
  destruct (fetchVideo rt args 1 Scenario.world0) as [[o w']|] eqn:E.
  2:{ revert E. vm_compute. discriminate. }
  destruct (only_expected_requests rt args 1 js o Scenario.world0 w'
              ltac:(vm_compute; reflexivity) E) as (new & Hev & Hn).
  exists w', new. split; [reflexivity|]. split; [exact Hev | exact Hn].
Defined.
